(** * MTBS: the multithreaded bank transaction system, embedded in Rocq

    The development follows the C++ sources:
    - [account.h], [account.cpp]: [Transaction], [Account] and its
      mutex-protected operations;
    - [bank.h], [bank.cpp], [bank_utils.h], [bank_utils.cpp],
      [transaction.cpp]: the registry [Bank], its exceptions and the
      validation helpers it calls;
    - [thread_manager.h], [thread_manager.cpp]: [ThreadPool].

    A [double] is a binary64 primitive float, a [std::string] a [string],
    a [size_t] or [unsigned long long] an [N] with its wrap-around written
    out, a [std::map] a [gmap], and an object that is shared by reference
    (an [Account] behind a [std::shared_ptr] or an [Account&]) lives in a
    heap indexed by its address, so that two references to one object
    alias.  Wall-clock timestamps are not modelled. *)

From Stdlib Require Import Floats ZArith Ascii.
From stdpp Require Import gmap strings list pretty.

Set Default Proof Using "Type".

(** ** [std::mutex]

    A mutex records how many times the calling thread currently owns it.
    Every mutex of the program is declared [std::mutex].  Calling [lock]
    on a [std::mutex] the caller already owns breaks the precondition of
    [lock]: the behaviour is undefined, and the implementations either
    block the thread for ever or throw [std::system_error]
    ([resource_deadlock_would_occur]); in no case is the mutex acquired a
    second time.  [Mutex_lock] answers [None] in that case.  The kind
    [std_recursive_mutex], which no object of the program has, lets the
    code that follows a nested acquisition be inspected as well. *)

Inductive mutex_kind := std_mutex | std_recursive_mutex.

Record Mutex := { kind : mutex_kind; depth : nat }.

Definition Mutex_new : Mutex := {| kind := std_mutex; depth := 0 |}.

Definition Mutex_lock (m : Mutex) : option Mutex :=
  match depth m, kind m with
  | 0, _ => Some {| kind := kind m; depth := 1 |}
  | S d, std_recursive_mutex => Some {| kind := kind m; depth := S (S d) |}
  | S _, std_mutex => None
  end.

Definition Mutex_unlock (m : Mutex) : Mutex :=
  {| kind := kind m; depth := Nat.pred (depth m) |}.

(** ** [struct Transaction] (account.h) *)

Module TransactionType.
Definition DEPOSIT : string := "DEPOSIT".
Definition WITHDRAW : string := "WITHDRAW".
Definition TRANSFER : string := "TRANSFER".
Definition BALANCE_CHECK : string := "BALANCE_CHECK".
End TransactionType.

Module TransactionStatus.
Definition SUCCESS : string := "SUCCESS".
Definition FAILED : string := "FAILED".
Definition PENDING : string := "PENDING".
Definition INSUFFICIENT_FUNDS : string := "INSUFFICIENT_FUNDS".
Definition INVALID_ACCOUNT : string := "INVALID_ACCOUNT".
End TransactionStatus.

Record Transaction := {
  transactionId : string;
  fromAccount : string;
  toAccount : string;
  type : string;
  amount : float;
  description : string;
  status : string
}.

(** [Transaction::Transaction]: a new record is PENDING. *)
Definition Transaction_new (id from to t : string) (amt : float)
    (desc : string) : Transaction :=
  {| transactionId := id; fromAccount := from; toAccount := to; type := t;
     amount := amt; description := desc;
     status := TransactionStatus.PENDING |}.

(** The assignment [transaction.status = s] to the mutable field. *)
Definition set_status (s : string) (t : Transaction) : Transaction :=
  {| transactionId := transactionId t; fromAccount := fromAccount t;
     toAccount := toAccount t; type := type t; amount := amount t;
     description := description t; status := s |}.

(** [Transaction::isSuccessful] *)
Definition isSuccessful (t : Transaction) : bool :=
  String.eqb (status t) TransactionStatus.SUCCESS.

(** ** [class Account] (account.h) *)

Definition loc := nat.

Record Account := {
  accountNumber : string;
  accountHolderName : string;
  balance : float;
  transactionHistory : list Transaction;
  accountMutex : Mutex
}.

Definition set_balance (b : float) (a : Account) : Account :=
  {| accountNumber := accountNumber a;
     accountHolderName := accountHolderName a;
     balance := b;
     transactionHistory := transactionHistory a;
     accountMutex := accountMutex a |}.

Definition set_transactionHistory (h : list Transaction) (a : Account)
    : Account :=
  {| accountNumber := accountNumber a;
     accountHolderName := accountHolderName a;
     balance := balance a;
     transactionHistory := h;
     accountMutex := accountMutex a |}.

Definition set_accountMutex (m : Mutex) (a : Account) : Account :=
  {| accountNumber := accountNumber a;
     accountHolderName := accountHolderName a;
     balance := balance a;
     transactionHistory := transactionHistory a;
     accountMutex := m |}.

(** ** [class Bank] and [class BankException] (bank.h) *)

Inductive ErrorType :=
  | ACCOUNT_NOT_FOUND
  | INSUFFICIENT_FUNDS
  | INVALID_AMOUNT
  | ACCOUNT_CLOSED
  | TRANSACTION_FAILED
  | SYSTEM_ERROR
  | INVALID_ACCOUNT_NUMBER
  | DUPLICATE_ACCOUNT.

(** What a function of the program can throw. *)
Inductive exception :=
  | BankException (errorType : ErrorType) (errorMessage : string)
      (accNumber : string)
  | invalid_argument (what : string).

Inductive LogLevel := DEBUG | INFO | WARNING | ERROR | CRITICAL.

Record Config := {
  bankName : string;
  bankCode : string;
  maxAccounts : N;
  maxConcurrentTransactions : N;
  enableAuditLogging : bool
}.

Record Bank := {
  config : Config;
  accounts : gmap string loc;
  accountsMutex : Mutex;
  totalTransactions : N;
  successfulTransactions : N;
  failedTransactions : N
}.

Definition set_accounts (m : gmap string loc) (b : Bank) : Bank :=
  {| config := config b; accounts := m; accountsMutex := accountsMutex b;
     totalTransactions := totalTransactions b;
     successfulTransactions := successfulTransactions b;
     failedTransactions := failedTransactions b |}.

Definition set_accountsMutex (m : Mutex) (b : Bank) : Bank :=
  {| config := config b; accounts := accounts b; accountsMutex := m;
     totalTransactions := totalTransactions b;
     successfulTransactions := successfulTransactions b;
     failedTransactions := failedTransactions b |}.

(** ** The state one thread of the program runs in

    [heap] holds the [Account] objects; [transactionCounter] is the static
    [Transaction::transactionCounter]; [bank] is the [Bank] object;
    [logged] is what [TransactionLogger::logMessage] was asked to write;
    [random_device] and [draws] are the source of the generator used by
    [BankUtils::generateAccountNumber] and how much of it was consumed. *)

Record world := {
  heap : gmap loc Account;
  transactionCounter : N;
  bank : Bank;
  logged : list (LogLevel * string);
  random_device : nat -> Z;
  draws : nat
}.

Definition set_heap (h : gmap loc Account) (w : world) : world :=
  {| heap := h; transactionCounter := transactionCounter w; bank := bank w;
     logged := logged w; random_device := random_device w;
     draws := draws w |}.

Definition set_transactionCounter (n : N) (w : world) : world :=
  {| heap := heap w; transactionCounter := n; bank := bank w;
     logged := logged w; random_device := random_device w;
     draws := draws w |}.

Definition set_bank (b : Bank) (w : world) : world :=
  {| heap := heap w; transactionCounter := transactionCounter w; bank := b;
     logged := logged w; random_device := random_device w;
     draws := draws w |}.

Definition set_logged (l : list (LogLevel * string)) (w : world) : world :=
  {| heap := heap w; transactionCounter := transactionCounter w;
     bank := bank w; logged := l; random_device := random_device w;
     draws := draws w |}.

Definition set_draws (d : nat) (w : world) : world :=
  {| heap := heap w; transactionCounter := transactionCounter w;
     bank := bank w; logged := logged w; random_device := random_device w;
     draws := d |}.

(** The mutexes of the program, by the object they are a member of. *)
Inductive mutex_ref :=
  | AccountMutex (l : loc)
  | AccountsMutex.

(** ** Outcomes and the monad of member functions

    A call returns a value, or leaves by an exception, or does not come
    back because it calls [lock] on a [std::mutex] its own thread holds:
    [Relock], with the mutex and the state in which [lock] is called.  [Dangling] stands for a
    reference to no object: a C++ reference is always bound, so the
    outcome only arises for an address that was never allocated. *)

Inductive outcome (A : Type) :=
  | Returned (a : A) (w : world)
  | Thrown (e : exception) (w : world)
  | Relock (m : mutex_ref) (w : world)
  | Dangling (l : loc).
Arguments Returned {A} a w.
Arguments Thrown {A} e w.
Arguments Relock {A} m w.
Arguments Dangling {A} l.

Definition M (A : Type) : Type := world -> outcome A.

Definition ret {A} (a : A) : M A := fun w => Returned a w.

Definition bind {A B} (c : M A) (k : A -> M B) : M B :=
  fun w =>
    match c w with
    | Returned a w' => k a w'
    | Thrown e w' => Thrown e w'
    | Relock m w' => Relock m w'
    | Dangling l => Dangling l
    end.

Definition throw {A} (e : exception) : M A := fun w => Thrown e w.

Declare Scope cpp_scope.
Delimit Scope cpp_scope with cpp.
Notation "'let*' x := c 'in' k" := (bind c (fun x => k))
  (at level 10, x name, c at level 100, k at level 200) : cpp_scope.
Notation "c ;; k" := (bind c (fun _ => k))
  (at level 100, k at level 200, right associativity) : cpp_scope.
Open Scope cpp_scope.

(** Member access through a reference. *)
Definition load (l : loc) : M Account :=
  fun w => match heap w !! l with
           | Some a => Returned a w
           | None => Dangling l
           end.

Definition store (l : loc) (f : Account -> Account) : M unit :=
  fun w => match heap w !! l with
           | Some a => Returned tt (set_heap (<[l := f a]> (heap w)) w)
           | None => Dangling l
           end.

(** [m.lock()] *)
Definition lock (m : mutex_ref) : M unit :=
  fun w =>
    match m with
    | AccountMutex l =>
        match heap w !! l with
        | None => Dangling l
        | Some a =>
            match Mutex_lock (accountMutex a) with
            | Some mu =>
                Returned tt (set_heap (<[l := set_accountMutex mu a]> (heap w)) w)
            | None => Relock m w
            end
        end
    | AccountsMutex =>
        match Mutex_lock (accountsMutex (bank w)) with
        | Some mu => Returned tt (set_bank (set_accountsMutex mu (bank w)) w)
        | None => Relock m w
        end
    end.

(** [m.unlock()] *)
Definition unlock (m : mutex_ref) : M unit :=
  fun w =>
    match m with
    | AccountMutex l =>
        match heap w !! l with
        | None => Dangling l
        | Some a =>
            Returned tt
              (set_heap (<[l := set_accountMutex (Mutex_unlock (accountMutex a)) a]>
                           (heap w)) w)
        end
    | AccountsMutex =>
        Returned tt
          (set_bank (set_accountsMutex (Mutex_unlock (accountsMutex (bank w)))
                       (bank w)) w)
    end.

(** [std::lock_guard<std::mutex> lock(m);] followed by the rest of the
    scope: the destructor unlocks on every way out of the scope, a return
    as well as an exception. *)
Definition lock_guard {A} (m : mutex_ref) (scope : M A) : M A :=
  fun w =>
    match lock m w with
    | Returned _ w1 =>
        match scope w1 with
        | Returned a w2 => (unlock m ;; ret a) w2
        | Thrown e w2 => (unlock m ;; throw e) w2
        | o => o
        end
    | Thrown e w1 => Thrown e w1
    | Relock m' w1 => Relock m' w1
    | Dangling l => Dangling l
    end.

(** [++Transaction::transactionCounter] on the 64-bit atomic counter. *)
Definition next_transactionCounter : M N :=
  fun w =>
    let n := ((transactionCounter w + 1) mod 2 ^ 64)%N in
    Returned n (set_transactionCounter n w).

(** [std::to_string] on an [unsigned long long]. *)
Definition to_string (n : N) : string := pretty n.

(** ** [Account]'s member functions (account.cpp) *)

(** [Account::addTransaction] *)
Definition addTransaction (this : loc) (transaction : Transaction) : M unit :=
  lock_guard (AccountMutex this)
    (store this (fun a =>
       set_transactionHistory (transactionHistory a ++ [transaction]) a)).

(** [Account::Account].  The object is released again when the
    constructor throws. *)
Definition Account_new (number holderName : string) (initialBalance : float)
    : M loc :=
  fun w =>
    let this := fresh (dom (heap w)) in
    let obj := {| accountNumber := number; accountHolderName := holderName;
                  balance := initialBalance; transactionHistory := [];
                  accountMutex := Mutex_new |} in
    if PrimFloat.ltb initialBalance 0 then
      Thrown (invalid_argument "Initial balance cannot be negative") w
    else
      (if PrimFloat.ltb 0 initialBalance then
         let* n := next_transactionCounter in
         let transactionId := "INIT_" +:+ to_string n in
         let initTransaction :=
           Transaction_new transactionId "" number TransactionType.DEPOSIT
                           initialBalance "Initial deposit" in
         addTransaction this initTransaction ;;
         ret this
       else ret this)
      (set_heap (<[this := obj]> (heap w)) w).

(** [Account::getBalance] *)
Definition getBalance (this : loc) : M float :=
  lock_guard (AccountMutex this)
    (let* a := load this in ret (balance a)).

(** [Account::getTransactionHistory] *)
Definition getTransactionHistory (this : loc) : M (list Transaction) :=
  lock_guard (AccountMutex this)
    (let* a := load this in ret (transactionHistory a)).

(** [Account::deposit] *)
Definition deposit (this : loc) (amount : float) (description : string)
    : M bool :=
  lock_guard (AccountMutex this)
    (if PrimFloat.leb amount 0 then ret false
     else
       store this (fun a => set_balance (balance a + amount)%float a) ;;
       let* n := next_transactionCounter in
       let transactionId := "DEP_" +:+ to_string n in
       let* a := load this in
       let depositTransaction :=
         set_status TransactionStatus.SUCCESS
           (Transaction_new transactionId "" (accountNumber a)
              TransactionType.DEPOSIT amount description) in
       addTransaction this depositTransaction ;;
       ret true).

(** [Account::withdraw] *)
Definition withdraw (this : loc) (amount : float) (description : string)
    : M bool :=
  lock_guard (AccountMutex this)
    (if PrimFloat.leb amount 0 then ret false
     else
       let* a := load this in
       if PrimFloat.ltb (balance a) amount then
         let* n := next_transactionCounter in
         let transactionId := "WTH_" +:+ to_string n in
         let withdrawTransaction :=
           set_status TransactionStatus.INSUFFICIENT_FUNDS
             (Transaction_new transactionId (accountNumber a) ""
                TransactionType.WITHDRAW amount description) in
         addTransaction this withdrawTransaction ;;
         ret false
       else
         store this (fun a => set_balance (balance a - amount)%float a) ;;
         let* n := next_transactionCounter in
         let transactionId := "WTH_" +:+ to_string n in
         let withdrawTransaction :=
           set_status TransactionStatus.SUCCESS
             (Transaction_new transactionId (accountNumber a) ""
                TransactionType.WITHDRAW amount description) in
         addTransaction this withdrawTransaction ;;
         ret true).

(** [Account::transfer].  [lock1] and [lock2] are deferred
    [std::unique_lock]s; they are locked in the order of the account
    numbers and released by their destructors, [lock2] first, on every
    return. *)
Definition transfer (this targetAccount : loc) (amount : float)
    (description : string) : M bool :=
  let lock1 := AccountMutex this in
  let lock2 := AccountMutex targetAccount in
  let* a := load this in
  let* t := load targetAccount in
  (if String.ltb (accountNumber a) (accountNumber t)
   then lock lock1 ;; lock lock2
   else lock lock2 ;; lock lock1) ;;
  let* result :=
    (if PrimFloat.leb amount 0 then ret false
     else
       let* a := load this in
       if PrimFloat.ltb (balance a) amount then
         let* n := next_transactionCounter in
         let transactionId := "TRF_" +:+ to_string n in
         let transferTransaction :=
           set_status TransactionStatus.INSUFFICIENT_FUNDS
             (Transaction_new transactionId (accountNumber a)
                (accountNumber t) TransactionType.TRANSFER amount
                description) in
         addTransaction this transferTransaction ;;
         ret false
       else
         store this (fun a => set_balance (balance a - amount)%float a) ;;
         store targetAccount
           (fun a => set_balance (balance a + amount)%float a) ;;
         let* n := next_transactionCounter in
         let transactionId := "TRF_" +:+ to_string n in
         let outgoingTransfer :=
           set_status TransactionStatus.SUCCESS
             (Transaction_new transactionId (accountNumber a)
                (accountNumber t) TransactionType.TRANSFER amount
                description) in
         addTransaction this outgoingTransfer ;;
         let incomingTransfer :=
           set_status TransactionStatus.SUCCESS
             (Transaction_new transactionId (accountNumber a)
                (accountNumber t) TransactionType.TRANSFER amount
                description) in
         addTransaction targetAccount incomingTransfer ;;
         ret true) in
  unlock lock2 ;;
  unlock lock1 ;;
  ret result.

(** ** Helpers of the registry (transaction.cpp, bank_utils.h, bank_utils.cpp) *)

(** [TransactionUtils::isValidAccountNumber], which is what
    [Bank::validateAccountNumber] calls. *)
Definition isValidAccountNumber (accountNumber : string) : bool :=
  negb (String.eqb accountNumber "") && (8 <=? String.length accountNumber).

(** [BankUtils::isValidInitialBalance] as bank_utils.h defines it inline;
    bank.cpp repeats it with [balance < 1000000.0]. *)
Definition isValidInitialBalance (balance : float) : bool :=
  PrimFloat.leb 0 balance && PrimFloat.leb balance 1000000.

(** [std::setw(width) << std::setfill(fill)] applied to one field. *)
Fixpoint fill_string (n : nat) (fill : Ascii.ascii) : string :=
  match n with
  | 0 => ""
  | S n' => String fill (fill_string n' fill)
  end.

Definition setw (width : nat) (fill : Ascii.ascii) (field : string) : string :=
  fill_string (width - String.length field) fill +:+ field.

(** [dis(gen)] for [std::uniform_int_distribution<> dis(1000, 9999)]. *)
Definition dis_gen : M Z :=
  fun w =>
    Returned (1000 + random_device w (draws w) mod 9000)%Z
             (set_draws (S (draws w)) w).

(** [BankUtils::generateAccountNumber] of bank_utils.cpp: MTBS-XXXX-XXXX.
    bank.cpp keeps a second definition ("ACC" and a zero-padded counter)
    next to the remark that the function is now implemented in
    bank_utils.cpp; both produce more than eight characters. *)
Definition generateAccountNumber : M string :=
  let* d1 := dis_gen in
  let* d2 := dis_gen in
  ret ("MTBS-" +:+ setw 4 "0"%char (pretty d1) +:+ "-" +:+ setw 4 "0"%char (pretty d2)).

Definition LogLevel_rank (l : LogLevel) : nat :=
  match l with
  | DEBUG => 0 | INFO => 1 | WARNING => 2 | ERROR => 3 | CRITICAL => 4
  end.

(** [TransactionLogger::logMessage]; the logger of a [Bank] keeps the
    level [INFO] it is constructed with.  The entry written to the file
    is recorded without its timestamp. *)
Definition logMessage (level : LogLevel) (message : string) : M unit :=
  fun w =>
    if LogLevel_rank level <? LogLevel_rank INFO then Returned tt w
    else Returned tt (set_logged (logged w ++ [(level, message)]) w).

(** ** [Bank]'s member functions (bank.cpp) *)

(** [Bank::Bank] *)
Definition Bank_new (cfg : Config) : Bank :=
  {| config := cfg; accounts := ∅; accountsMutex := Mutex_new;
     totalTransactions := 0; successfulTransactions := 0;
     failedTransactions := 0 |}.

(** The state of a process that has just constructed its [Bank]. *)
Definition world_new (cfg : Config) (rd : nat -> Z) : world :=
  {| heap := ∅; transactionCounter := 0; bank := Bank_new cfg; logged := [];
     random_device := rd; draws := 0 |}.

Definition get_bank : M Bank := fun w => Returned (bank w) w.

(** [Bank::validateAccountNumber] *)
Definition validateAccountNumber (accountNumber : string) : bool :=
  isValidAccountNumber accountNumber.

(** [Bank::getTotalAccounts] *)
Definition getTotalAccounts : M N :=
  lock_guard AccountsMutex
    (let* b := get_bank in ret (N.of_nat (size (accounts b)))).

(** [Bank::createAccount] *)
Definition createAccount (holderName : string) (initialBalance : float)
    : M string :=
  if String.eqb holderName "" then
    throw (BankException INVALID_ACCOUNT_NUMBER
             "Account holder name cannot be empty" "")
  else if negb (isValidInitialBalance initialBalance) then
    throw (BankException INVALID_AMOUNT "Invalid initial balance" "")
  else
    let* total := getTotalAccounts in
    let* b := get_bank in
    if (maxAccounts (config b) <=? total)%N then
      throw (BankException SYSTEM_ERROR
               "Maximum number of accounts reached" "")
    else
      let* accountNumber := generateAccountNumber in
      let* account := Account_new accountNumber holderName initialBalance in
      lock_guard AccountsMutex
        (fun w => Returned tt
           (set_bank (set_accounts (<[accountNumber := account]>
                                      (accounts (bank w))) (bank w)) w)) ;;
      (if enableAuditLogging (config b) then
         logMessage INFO
           ("Account created: " +:+ accountNumber +:+ " for " +:+ holderName)
       else ret tt) ;;
      ret accountNumber.

(** [Bank::closeAccount] *)
Definition closeAccount (accountNumber : string) : M bool :=
  if negb (validateAccountNumber accountNumber) then ret false
  else
    lock_guard AccountsMutex
      (let* b := get_bank in
       match accounts b !! accountNumber with
       | None => ret false
       | Some it =>
           let* bal := getBalance it in
           if negb (PrimFloat.eqb bal 0) then ret false
           else
             (fun w => Returned tt
                (set_bank (set_accounts (delete accountNumber
                                           (accounts (bank w))) (bank w)) w)) ;;
             (if enableAuditLogging (config b) then
                logMessage INFO ("Account closed: " +:+ accountNumber)
              else ret tt) ;;
             ret true
       end).

(** [Bank::getAccount]: the handle, or [None] for [nullptr]. *)
Definition getAccount (accountNumber : string) : M (option loc) :=
  if negb (validateAccountNumber accountNumber) then ret None
  else
    lock_guard AccountsMutex
      (let* b := get_bank in ret (accounts b !! accountNumber)).

(** [Bank::getAccountBalance] *)
Definition getAccountBalance (accountNumber : string) : M float :=
  let* account := getAccount accountNumber in
  match account with
  | Some acc => getBalance acc
  | None => ret (-1)%float
  end.

(** [Bank::getAccountTransactions] *)
Definition getAccountTransactions (accountNumber : string)
    : M (list Transaction) :=
  let* account := getAccount accountNumber in
  match account with
  | Some acc => getTransactionHistory acc
  | None => ret []
  end.

(** [Bank::updateStatistics], on 64-bit atomic counters. *)
Definition updateStatistics (success : bool) : M unit :=
  fun w =>
    let b := bank w in
    let incr n := ((n + 1) mod 2 ^ 64)%N in
    Returned tt
      (set_bank
         {| config := config b; accounts := accounts b;
            accountsMutex := accountsMutex b;
            totalTransactions := incr (totalTransactions b);
            successfulTransactions :=
              if success then incr (successfulTransactions b)
              else successfulTransactions b;
            failedTransactions :=
              if success then failedTransactions b
              else incr (failedTransactions b) |} w).

Section ProcessTransactions.

  (** [std::to_string] on a [double], used only to word log messages. *)
Variable double_to_string : float -> string.

  (** [Bank::processDeposit] *)
Definition processDeposit (accountNumber : string) (amount : float)
      (description : string) : M bool :=
    let* account := getAccount accountNumber in
    match account with
    | None => updateStatistics false ;; ret false
    | Some acc =>
        let* success := deposit acc amount description in
        updateStatistics success ;;
        let* b := get_bank in
        (if success && enableAuditLogging (config b) then
           logMessage INFO ("Deposit: $" +:+ double_to_string amount +:+
                            " to account " +:+ accountNumber)
         else ret tt) ;;
        ret success
    end.

  (** [Bank::processWithdraw] *)
Definition processWithdraw (accountNumber : string) (amount : float)
      (description : string) : M bool :=
    let* account := getAccount accountNumber in
    match account with
    | None => updateStatistics false ;; ret false
    | Some acc =>
        let* success := withdraw acc amount description in
        updateStatistics success ;;
        let* b := get_bank in
        (if success && enableAuditLogging (config b) then
           logMessage INFO ("Withdrawal: $" +:+ double_to_string amount +:+
                            " from account " +:+ accountNumber)
         else ret tt) ;;
        ret success
    end.

  (** [Bank::processTransfer] *)
Definition processTransfer (fromAccount toAccount : string)
      (amount : float) (description : string) : M bool :=
    let* fromAcc := getAccount fromAccount in
    let* toAcc := getAccount toAccount in
    match fromAcc, toAcc with
    | Some from, Some to =>
        let* success := transfer from to amount description in
        updateStatistics success ;;
        let* b := get_bank in
        (if success && enableAuditLogging (config b) then
           logMessage INFO ("Transfer: $" +:+ double_to_string amount +:+
                            " from " +:+ fromAccount +:+ " to " +:+ toAccount)
         else ret tt) ;;
        ret success
    | _, _ => updateStatistics false ;; ret false
    end.

End ProcessTransactions.

(** ** [class ThreadPool] (thread_manager.h, thread_manager.cpp)

    The pool is shared by the threads that call its member functions and
    by its worker threads, so it is modelled as a transition system: one
    transition is what one thread does to the pool between two points
    where the others can observe it. *)

Module ThreadPool.

  (** [struct Task].  A [std::function<void()>] is known by a number;
      [None] is the empty function. *)
Record Task := {
    function : option nat;
    description : string;
    priority : Z
  }.

  (** Where a worker thread stands in [workerFunction]:
      [LoopTest] before the test of [while (running)], which is also where
      a new thread starts; [Waiting] inside the loop, before it takes
      [poolMutex] and waits on [condition]; [Executing task] after the
      critical section, with the task it has popped; [Exited] once
      [workerFunction] has returned. *)
Inductive worker :=
    | LoopTest
    | Waiting
    | Executing (task : Task)
    | Exited.

  (** [finished] is not a member of the class: it lists, oldest first, the
      tasks whose function a worker has called and seen return. *)
Record ThreadPool := {
    workers : list worker;
    taskQueue : list Task;
    running : bool;
    activeThreads : N;
    finished : list Task
  }.

  (** [ThreadPool::ThreadPool]: [createWorker] starts every thread on
      [workerFunction]. *)
Definition ThreadPool_new (threadCount : nat) : ThreadPool :=
    {| workers := replicate threadCount LoopTest; taskQueue := [];
       running := false; activeThreads := 0; finished := [] |}.

  (** [ThreadPool::start] *)
Definition start (p : ThreadPool) : ThreadPool :=
    if negb (running p) then
      {| workers := workers p; taskQueue := taskQueue p; running := true;
         activeThreads := activeThreads p; finished := finished p |}
    else p.

  (** [ThreadPool::submitTask] *)
Definition submitTask (task : option nat) (description : string)
      (p : ThreadPool) : bool * ThreadPool :=
    if negb (running p) then (false, p)
    else
      let newTask :=
        {| function := task; description := description; priority := 0 |} in
      (true,
       {| workers := workers p; taskQueue := taskQueue p ++ [newTask];
          running := running p; activeThreads := activeThreads p;
          finished := finished p |}).

  (** [ThreadPool::stop] up to [condition.notify_all()]. *)
Definition stop_request (p : ThreadPool) : ThreadPool :=
    {| workers := workers p; taskQueue := taskQueue p; running := false;
       activeThreads := activeThreads p; finished := finished p |}.

Definition has_exited (wk : worker) : bool :=
    match wk with Exited => true | _ => false end.

  (** The rest of [ThreadPool::stop]: every [worker->join()] returns once
      its thread has left [workerFunction]; then [workers.clear()]. *)
Definition stop_join (p : ThreadPool) : option ThreadPool :=
    if forallb has_exited (workers p) then
      Some {| workers := []; taskQueue := taskQueue p; running := running p;
              activeThreads := activeThreads p; finished := finished p |}
    else None.

  (** [ThreadPool::getQueueSize], [isRunning], [getActiveThreadCount] *)
Definition getQueueSize (p : ThreadPool) : N := N.of_nat (length (taskQueue p)).
Definition isRunning (p : ThreadPool) : bool := running p.
Definition getActiveThreadCount (p : ThreadPool) : N := activeThreads p.

  (** [taskQueue.top()] is an element of greatest priority; which one
      among equals is left to the heap, so the position [k] of the task
      that is popped is an argument. *)
Definition is_top (q : list Task) (task : Task) : bool :=
    forallb (fun other => (priority other <=? priority task)%Z) q.

  (** One move of a worker thread in [ThreadPool::workerFunction].
      [None]: the thread cannot move (it is blocked in [condition.wait],
      or it has exited, or [k] is not the position of a top task). *)
Definition workerFunction (k : nat) (wk : worker) (p : ThreadPool)
      : option (worker * ThreadPool) :=
    match wk with
    | LoopTest => Some (if running p then Waiting else Exited, p)
    | Waiting =>
        match taskQueue p with
        | [] => if running p then None else Some (Exited, p)
        | _ :: _ =>
            match taskQueue p !! k with
            | Some task =>
                if is_top (taskQueue p) task then
                  Some (Executing task,
                        {| workers := workers p;
                           taskQueue := delete k (taskQueue p);
                           running := running p;
                           activeThreads :=
                             ((activeThreads p + 1) mod 2 ^ 64)%N;
                           finished := finished p |})
                else None
            | None => None
            end
        end
    | Executing task =>
        Some (LoopTest,
              {| workers := workers p; taskQueue := taskQueue p;
                 running := running p;
                 activeThreads := ((activeThreads p + (2 ^ 64 - 1)) mod 2 ^ 64)%N;
                 finished :=
                   match function task with
                   | Some _ => finished p ++ [task]
                   | None => finished p
                   end |})
    | Exited => None
    end.

  (** What the threads of the program can do to the pool. *)
Inductive event :=
    | Start
    | Submit (task : option nat) (description : string)
    | StopRequest
    | StopJoin
    | Work (i k : nat).

Definition step (e : event) (p : ThreadPool) : option ThreadPool :=
    match e with
    | Start => Some (start p)
    | Submit task description => Some (snd (submitTask task description p))
    | StopRequest => Some (stop_request p)
    | StopJoin => stop_join p
    | Work i k =>
        match workers p !! i with
        | Some wk =>
            match workerFunction k wk p with
            | Some (wk', p') =>
                Some {| workers := <[i := wk']> (workers p');
                        taskQueue := taskQueue p'; running := running p';
                        activeThreads := activeThreads p';
                        finished := finished p' |}
            | None => None
            end
        | None => None
        end
    end.

Fixpoint run (es : list event) (p : ThreadPool) : option ThreadPool :=
    match es with
    | [] => Some p
    | e :: es' =>
        match step e p with
        | Some p' => run es' p'
        | None => None
        end
    end.

End ThreadPool.

(** * Notions used to state the results *)

(** ** Accounts in the middle of an operation *)

(** [w] once the calling thread owns the mutex of [this], has left its
    balance at [b] and the transaction counter at [n].  The history is
    the one of [a]. *)
Definition inside (w : world) (this : loc) (a : Account) (b : float) (n : N)
    : world :=
  set_transactionCounter n
    (set_heap
       (<[this := set_balance b
                    (set_accountMutex {| kind := std_mutex; depth := 1 |} a)]>
          (heap w)) w).

(** The same with the mutexes of both [this] and [target] owned. *)
Definition inside2 (w : world) (this target : loc) (a t : Account)
    (b bt : float) (n : N) : world :=
  set_transactionCounter n
    (set_heap
       (<[target := set_balance bt
                      (set_accountMutex {| kind := std_mutex; depth := 1 |} t)]>
          (<[this := set_balance b
                       (set_accountMutex {| kind := std_mutex; depth := 1 |} a)]>
             (heap w))) w).

(** A call that ends in the nested acquisition of the mutex of [l], which
    its thread holds once at that point. *)
Definition relocks {A} (o : outcome A) (l : loc) : Prop :=
  exists w' a',
    o = Relock (AccountMutex l) w' /\
    heap w' !! l = Some a' /\
    accountMutex a' = {| kind := std_mutex; depth := 1 |}.

(** ** The same code over re-entrant mutexes *)

Definition Mutex_recursive : Mutex :=
  {| kind := std_recursive_mutex; depth := 0 |}.

(** [w] with the mutex of [this] replaced by a free re-entrant one. *)
Definition reentrant (this : loc) (a : Account) (w : world) : world :=
  set_heap (<[this := set_accountMutex Mutex_recursive a]> (heap w)) w.

(** The heap once [l], read as [a], has balance [b] and one more record. *)
Definition recorded (h : gmap loc Account) (l : loc) (a : Account)
    (b : float) (transaction : Transaction) : gmap loc Account :=
  <[l := set_transactionHistory (transactionHistory a ++ [transaction])
           (set_balance b a)]> h.

Definition deposit_record (n : N) (a : Account) (amount : float)
    (description : string) : Transaction :=
  set_status TransactionStatus.SUCCESS
    (Transaction_new ("DEP_" +:+ to_string n) "" (accountNumber a)
       TransactionType.DEPOSIT amount description).

Definition withdraw_record (n : N) (a : Account) (amount : float)
    (description st : string) : Transaction :=
  set_status st
    (Transaction_new ("WTH_" +:+ to_string n) (accountNumber a) ""
       TransactionType.WITHDRAW amount description).

Definition transfer_record (n : N) (a t : Account) (amount : float)
    (description st : string) : Transaction :=
  set_status st
    (Transaction_new ("TRF_" +:+ to_string n) (accountNumber a)
       (accountNumber t) TransactionType.TRANSFER amount description).

(** ** Sequences of deposits and withdrawals on one account *)

Inductive operation :=
  | Deposit (amount : float) (description : string)
  | Withdraw (amount : float) (description : string).

Definition operation_amount (op : operation) : float :=
  match op with
  | Deposit amount _ => amount
  | Withdraw amount _ => amount
  end.

Definition apply_operation (this : loc) (op : operation) : M bool :=
  match op with
  | Deposit amount description => deposit this amount description
  | Withdraw amount description => withdraw this amount description
  end.

(** The calls one after the other, with the value each returned. *)
Fixpoint apply_operations (this : loc) (ops : list operation)
    : M (list bool) :=
  match ops with
  | [] => ret []
  | op :: rest =>
      let* r := apply_operation this op in
      let* rs := apply_operations this rest in
      ret (r :: rs)
  end.

(** ** The registry between two calls

    No thread is inside the registry or inside one of its accounts, every
    number in the mapping passes [validateAccountNumber], and every handle
    in the mapping designates an account. *)
Definition registry_ok (w : world) : bool :=
  Nat.eqb (depth (accountsMutex (bank w))) 0 &&
  forallb (fun entry : string * loc =>
             validateAccountNumber entry.1 &&
             match heap w !! entry.2 with
             | Some a => Nat.eqb (depth (accountMutex a)) 0
             | None => false
             end)
          (map_to_list (accounts (bank w))).

(** The exception [Bank::createAccount] leaves by, if any: the three
    tests it makes before it generates a number. *)
Definition createAccount_error (holderName : string) (initialBalance : float)
    (w : world) : option exception :=
  if String.eqb holderName "" then
    Some (BankException INVALID_ACCOUNT_NUMBER
            "Account holder name cannot be empty" "")
  else if negb (isValidInitialBalance initialBalance) then
    Some (BankException INVALID_AMOUNT "Invalid initial balance" "")
  else if (maxAccounts (config (bank w)) <=?
           N.of_nat (size (accounts (bank w))))%N then
    Some (BankException SYSTEM_ERROR "Maximum number of accounts reached" "")
  else None.

(** [w] once [Bank::closeAccount] has erased [n] and logged it. *)
Definition closed (n : string) (w : world) : world :=
  (if enableAuditLogging (config (bank w))
   then set_logged (logged w ++ [(INFO, "Account closed: " +:+ n)])
   else fun w => w)
    (set_bank (set_accounts (delete n (accounts (bank w))) (bank w)) w).

(** ** The pool *)

(** A task that is finished or that some worker is executing. *)
Definition underway (task : ThreadPool.Task) (p : ThreadPool.ThreadPool)
    : Prop :=
  task ∈ ThreadPool.finished p \/
  ThreadPool.Executing task ∈ ThreadPool.workers p.

(** What a worker can still add to [finished] while [running] stays
    false: the task it is executing, or one task if it is waiting. *)
Definition may_finish (wk : ThreadPool.worker) : nat :=
  match wk with
  | ThreadPool.Waiting => 1
  | ThreadPool.Executing task =>
      match ThreadPool.function task with Some _ => 1 | None => 0 end
  | _ => 0
  end.

Definition outstanding (p : ThreadPool.ThreadPool) : nat :=
  length (ThreadPool.finished p) +
  sum_list (may_finish <$> ThreadPool.workers p).

(** Whether some thread calls [start] in a sequence of events. *)
Definition restarts (es : list ThreadPool.event) : bool :=
  existsb (fun e => match e with ThreadPool.Start => true | _ => false end) es.

(** ** The run of main.cpp, used as the concrete input of the results *)

Definition example_config : Config :=
  {| bankName := "MTBS Bank"; bankCode := "MTBS001"; maxAccounts := 100;
     maxConcurrentTransactions := 50; enableAuditLogging := true |}.

Definition example_random (i : nat) : Z := (Z.of_nat i * 1234)%Z.

Definition ann : Account :=
  {| accountNumber := "MTBS-1000-2234"; accountHolderName := "Ann";
     balance := 100;
     transactionHistory :=
       [Transaction_new "INIT_1" "" "MTBS-1000-2234" TransactionType.DEPOSIT
          100 "Initial deposit"];
     accountMutex := Mutex_new |}.

Definition bob : Account :=
  {| accountNumber := "MTBS-3468-4702"; accountHolderName := "Bob";
     balance := 50;
     transactionHistory :=
       [Transaction_new "INIT_2" "" "MTBS-3468-4702" TransactionType.DEPOSIT
          50 "Initial deposit"];
     accountMutex := Mutex_new |}.

Definition cid : Account :=
  {| accountNumber := "MTBS-5936-7170"; accountHolderName := "Cid";
     balance := 0; transactionHistory := []; accountMutex := Mutex_new |}.

(** The state after [createAccount("Ann", 100.0)],
    [createAccount("Bob", 50.0)] and [createAccount("Cid", 0.0)]. *)
Definition opened : world :=
  {| heap := <[2 := cid]> (<[1 := bob]> (<[0 := ann]> ∅));
     transactionCounter := 2;
     bank :=
       {| config := example_config;
          accounts := <["MTBS-5936-7170" := 2]>
                        (<["MTBS-3468-4702" := 1]>
                           (<["MTBS-1000-2234" := 0]> ∅));
          accountsMutex := Mutex_new; totalTransactions := 0;
          successfulTransactions := 0; failedTransactions := 0 |};
     logged := [(INFO, "Account created: MTBS-1000-2234 for Ann");
                (INFO, "Account created: MTBS-3468-4702 for Bob");
                (INFO, "Account created: MTBS-5936-7170 for Cid")];
     random_device := example_random; draws := 6 |}.

Definition job (n : nat) : ThreadPool.Task :=
  {| ThreadPool.function := Some n; ThreadPool.description := "job";
     ThreadPool.priority := 0 |}.

(** A running pool of one worker that waits while one task is queued. *)
Definition pool_with_queued_job : ThreadPool.ThreadPool :=
  {| ThreadPool.workers := [ThreadPool.Waiting];
     ThreadPool.taskQueue := [job 7];
     ThreadPool.running := true; ThreadPool.activeThreads := 0;
     ThreadPool.finished := [] |}.

(** A running pool whose first worker executes a task while the second
    waits and two more tasks are queued. *)
Definition busy_pool : ThreadPool.ThreadPool :=
  {| ThreadPool.workers := [ThreadPool.Executing (job 1); ThreadPool.Waiting];
     ThreadPool.taskQueue := [job 2; job 3];
     ThreadPool.running := true; ThreadPool.activeThreads := 1;
     ThreadPool.finished := [] |}.

(** * More of the sources *)

(** ** The other member functions of [Account] (account.cpp) *)

(** [Account::clearTransactionHistory] *)
Definition clearTransactionHistory (this : loc) : M unit :=
  lock_guard (AccountMutex this)
    (store this (fun a => set_transactionHistory [] a)).

(** [Account::isActive] *)
Definition isActive (this : loc) : M bool :=
  lock_guard (AccountMutex this)
    (let* a := load this in
     ret (negb (String.eqb (accountNumber a) "") &&
          negb (String.eqb (accountHolderName a) ""))).

(** [Account::getStatus] *)
Definition getStatus (this : loc) : M string :=
  lock_guard (AccountMutex this)
    (let* a := load this in
     if String.eqb (accountNumber a) "" then ret "INVALID"
     else if String.eqb (accountHolderName a) "" then ret "UNNAMED"
     else ret "ACTIVE").

Definition newline : string := String (ascii_of_nat 10) "".

Section AccountToString.

(** [std::fixed << std::setprecision(2)] applied to a [double], and the
    text [std::put_time] makes of [createdAt]. *)
Variable fixed2 : float -> string.
Variable createdAt_text : string.

(** [Account::toString]: the call of [getStatus] is the one operand of
    the output expression that does more than read a member. *)
Definition toString (this : loc) : M string :=
  lock_guard (AccountMutex this)
    (let* a := load this in
     let* st := getStatus this in
     ret ("Account Number: " +:+ accountNumber a +:+ newline +:+
          "Holder Name: " +:+ accountHolderName a +:+ newline +:+
          "Balance: $" +:+ fixed2 (balance a) +:+ newline +:+
          "Status: " +:+ st +:+ newline +:+
          "Created: " +:+ createdAt_text +:+ newline +:+
          "Transactions: " +:+
          to_string (N.of_nat (length (transactionHistory a))))).

End AccountToString.

(** ** The other member functions of [Bank] (bank.cpp) *)

(** [Bank::getAccountStatus] *)
Definition getAccountStatus (accountNumber : string) : M string :=
  let* account := getAccount accountNumber in
  match account with
  | Some acc => getStatus acc
  | None => ret "NOT_FOUND"
  end.

(** [Bank::validateTransaction] *)
Definition validateTransaction (accountNumber : string) (amount : float)
    (type : string) : M bool :=
  if negb (validateAccountNumber accountNumber) then ret false
  else if PrimFloat.leb amount 0 then ret false
  else
    let* account := getAccount accountNumber in
    match account with
    | None => ret false
    | Some acc =>
        let* active := isActive acc in
        if negb active then ret false
        else if String.eqb type "WITHDRAW" || String.eqb type "TRANSFER" then
          let* bal := getBalance acc in
          if PrimFloat.ltb bal amount then ret false else ret true
        else ret true
    end.

(** The number [BankUtils::generateAccountNumber] produces in [w]. *)
Definition next_account_number (w : world) : string :=
  match generateAccountNumber w with
  | Returned n _ => n
  | _ => ""
  end.

(** The bank after a sequence of calls of [Bank::updateStatistics]. *)
Fixpoint counted (successes : list bool) (w : world) : world :=
  match successes with
  | [] => w
  | success :: rest =>
      match updateStatistics success w with
      | Returned _ w' => counted rest w'
      | _ => w
      end
  end.

(** ** [namespace BankUtils] (bank.cpp, bank_utils.h) *)

Module BankUtils.

(** [BankUtils::formatAccountNumber] *)
Definition formatAccountNumber (number : string) : string :=
  if String.length number <=? 8 then number
  else String.substring 0 4 number +:+ "-" +:+ String.substring 4 4 number.

(** [std::min(a, b)], which is [(b < a) ? b : a]. *)
Definition std_min (a b : float) : float :=
  if PrimFloat.ltb b a then b else a.

(** [BankUtils::calculateTransactionFee]; the literal is the [double]
    nearest to 0.01. *)
Definition calculateTransactionFee (amount : float) (type : string) : float :=
  if String.eqb type TransactionType.TRANSFER then
    std_min (amount * 0x1.47ae147ae147bp-7)%float 10
  else if String.eqb type TransactionType.WITHDRAW then 2
  else 0.

(** A character of the class [[A-Z0-9]]. *)
Definition is_upper_or_digit (c : ascii) : bool :=
  let n := nat_of_ascii c in
  (65 <=? n) && (n <=? 90) || (48 <=? n) && (n <=? 57).

Fixpoint string_forallb (f : ascii -> bool) (s : string) : bool :=
  match s with
  | EmptyString => true
  | String c s' => f c && string_forallb f s'
  end.

(** [BankUtils::isValidAccountNumber] of bank_utils.h: the whole string
    has to match [^[A-Z0-9]{8,12}$]. *)
Definition isValidAccountNumber (accountNumber : string) : bool :=
  if String.eqb accountNumber "" || (String.length accountNumber <? 8)
  then false
  else
    string_forallb is_upper_or_digit accountNumber &&
    (8 <=? String.length accountNumber) &&
    (String.length accountNumber <=? 12).

End BankUtils.

(** ** [class WorkQueue] (thread_manager.cpp)

    As for the pool, one call is one transition; [None] is a caller
    blocked on [notFull] or [notEmpty] until another thread changes the
    queue. *)

Module WorkQueue.

(** [struct WorkItem], without its timestamp. *)
Record WorkItem := {
  work : option nat;
  description : string
}.

Record WorkQueue := {
  queue : list WorkItem;
  maxSize : N
}.

(** [WorkQueue::WorkQueue] *)
Definition WorkQueue_new (maxSize : N) : WorkQueue :=
  {| queue := []; maxSize := maxSize |}.

(** [WorkQueue::enqueue] *)
Definition enqueue (item : WorkItem) (q : WorkQueue)
    : option (bool * WorkQueue) :=
  if (N.of_nat (length (queue q)) <? maxSize q)%N then
    Some (true, {| queue := queue q ++ [item]; maxSize := maxSize q |})
  else None.

(** [WorkQueue::dequeue]: the item assigned through the reference and
    the value returned. *)
Definition dequeue (q : WorkQueue) : option (WorkItem * bool * WorkQueue) :=
  match queue q with
  | [] => None
  | item :: rest => Some (item, true, {| queue := rest; maxSize := maxSize q |})
  end.

(** [WorkQueue::size], [WorkQueue::empty] *)
Definition size (q : WorkQueue) : N := N.of_nat (length (queue q)).
Definition empty (q : WorkQueue) : bool :=
  match queue q with [] => true | _ => false end.

(** The calls threads make on the queue. *)
Inductive call :=
  | Enqueue (item : WorkItem)
  | Dequeue.

(** The calls one after the other, none of them blocked: the items
    dequeued, oldest first, and the queue at the end. *)
Fixpoint run (calls : list call) (q : WorkQueue)
    : option (list WorkItem * WorkQueue) :=
  match calls with
  | [] => Some ([], q)
  | Enqueue item :: rest =>
      match enqueue item q with
      | Some (_, q') => run rest q'
      | None => None
      end
  | Dequeue :: rest =>
      match dequeue q with
      | Some (item, _, q') =>
          match run rest q' with
          | Some (items, q'') => Some (item :: items, q'')
          | None => None
          end
      | None => None
      end
  end.

(** The items a sequence of calls enqueues, in order. *)
Definition enqueued (calls : list call) : list WorkItem :=
  omap (fun c => match c with Enqueue item => Some item | Dequeue => None end)
       calls.

End WorkQueue.

(** ** [class TransactionQueue] (transaction.cpp)

    The queue has its own [std::mutex], so a call is a function of the
    queue that returns ([Done]) or stops at a [lock] of the mutex its
    thread holds ([Blocked], with the queue at that point). *)

Module TransactionQueue.

(** [struct TransactionTask], without its timestamp. *)
Record TransactionTask := {
  task : option nat;
  description : string
}.

Record TransactionQueue := {
  taskQueue : list TransactionTask;
  queueMutex : Mutex;
  maxSize : N;
  totalProcessed : N;
  totalFailed : N
}.

Inductive result (A : Type) :=
  | Done (a : A) (q : TransactionQueue)
  | Blocked (q : TransactionQueue).
Arguments Done {A} a q.
Arguments Blocked {A} q.

Definition set_queueMutex (m : Mutex) (q : TransactionQueue)
    : TransactionQueue :=
  {| taskQueue := taskQueue q; queueMutex := m; maxSize := maxSize q;
     totalProcessed := totalProcessed q; totalFailed := totalFailed q |}.

Definition set_taskQueue (l : list TransactionTask) (q : TransactionQueue)
    : TransactionQueue :=
  {| taskQueue := l; queueMutex := queueMutex q; maxSize := maxSize q;
     totalProcessed := totalProcessed q; totalFailed := totalFailed q |}.

(** [std::lock_guard<std::mutex> lock(queueMutex);] and the rest of the
    scope. *)
Definition locked {A} (scope : TransactionQueue -> result A)
    (q : TransactionQueue) : result A :=
  match Mutex_lock (queueMutex q) with
  | None => Blocked q
  | Some mu =>
      match scope (set_queueMutex mu q) with
      | Done a q' => Done a (set_queueMutex (Mutex_unlock (queueMutex q')) q')
      | Blocked q' => Blocked q'
      end
  end.

(** [TransactionQueue::TransactionQueue] *)
Definition TransactionQueue_new (maxQueueSize : N) : TransactionQueue :=
  {| taskQueue := []; queueMutex := Mutex_new; maxSize := maxQueueSize;
     totalProcessed := 0; totalFailed := 0 |}.

(** [TransactionQueue::getQueueSize], [isEmpty], [isFull] *)
Definition getQueueSize : TransactionQueue -> result N :=
  locked (fun q => Done (N.of_nat (length (taskQueue q))) q).

Definition isEmpty : TransactionQueue -> result bool :=
  locked (fun q => Done (match taskQueue q with [] => true | _ => false end) q).

Definition isFull : TransactionQueue -> result bool :=
  locked (fun q => Done (maxSize q <=? N.of_nat (length (taskQueue q)))%N q).

(** [TransactionQueue::enqueueTransaction] *)
Definition enqueueTransaction (t : TransactionTask)
    : TransactionQueue -> result bool :=
  locked (fun q =>
    match isFull q with
    | Done true q' => Done false q'
    | Done false q' => Done true (set_taskQueue (taskQueue q' ++ [t]) q')
    | Blocked q' => Blocked q'
    end).

(** [TransactionQueue::dequeueTransaction]: the value returned and, when
    it is true, the task assigned through the reference. *)
Definition dequeueTransaction
    : TransactionQueue -> result (bool * option TransactionTask) :=
  locked (fun q =>
    match isEmpty q with
    | Done true q' => Done (false, None) q'
    | Done false q' =>
        match taskQueue q' with
        | front :: rest => Done (true, Some front) (set_taskQueue rest q')
        | [] => Done (true, None) q'
        end
    | Blocked q' => Blocked q'
    end).

(** [TransactionQueue::clearQueue]; the loop erases the first element
    until none is left. *)
Fixpoint erase_all (l : list TransactionTask) : list TransactionTask :=
  match l with
  | [] => []
  | _ :: rest => erase_all rest
  end.

Definition clearQueue : TransactionQueue -> result unit :=
  locked (fun q => Done tt (set_taskQueue (erase_all (taskQueue q)) q)).

(** [TransactionQueue::getQueueStatus] *)
Definition getQueueStatus : TransactionQueue -> result (list string) :=
  locked (fun q =>
    let line1 := "Queue Size: " +:+ to_string (N.of_nat (length (taskQueue q))) in
    let line2 := "Max Size: " +:+ to_string (maxSize q) in
    match isEmpty q with
    | Done e q1 =>
        match isFull q1 with
        | Done f q2 =>
            Done [line1; line2;
                  "Is Empty: " +:+ (if e then "Yes" else "No");
                  "Is Full: " +:+ (if f then "Yes" else "No")] q2
        | Blocked q2 => Blocked q2
        end
    | Blocked q1 => Blocked q1
    end).

(** The calls a thread makes on the queue. *)
Inductive call :=
  | EnqueueTransaction (t : TransactionTask)
  | DequeueTransaction
  | GetQueueSize
  | IsEmpty
  | IsFull
  | ClearQueue
  | GetQueueStatus.

(** One call: the queue it leaves and whether it returned. *)
Definition perform (c : call) (q : TransactionQueue)
    : TransactionQueue * bool :=
  let forget {A} (r : result A) :=
    match r with Done _ q' => (q', true) | Blocked q' => (q', false) end in
  match c with
  | EnqueueTransaction t => forget (enqueueTransaction t q)
  | DequeueTransaction => forget (dequeueTransaction q)
  | GetQueueSize => forget (getQueueSize q)
  | IsEmpty => forget (isEmpty q)
  | IsFull => forget (isFull q)
  | ClearQueue => forget (clearQueue q)
  | GetQueueStatus => forget (getQueueStatus q)
  end.

(** The calls of one thread, as far as they return. *)
Fixpoint perform_all (calls : list call) (q : TransactionQueue)
    : TransactionQueue * bool :=
  match calls with
  | [] => (q, true)
  | c :: rest =>
      match perform c q with
      | (q', true) => perform_all rest q'
      | (q', false) => (q', false)
      end
  end.

End TransactionQueue.

(** ** [class TransactionProcessor] (transaction.cpp)

    The processor counts its results with a static
    [std::atomic<unsigned long long>] of its own, which a call takes
    and gives back.  Of a transaction id, [TXN_<date>_<time>_<ms>_<n>],
    the number [n] is kept, and of a result all but its timestamp. *)

Module TransactionProcessor.

Record TransactionResult := {
  success : bool;
  message : string;
  transactionId : N;
  newBalance : float
}.

(** [TransactionProcessor::generateTransactionId]: the id and the
    counter after [++transactionCounter]. *)
Definition generateTransactionId (counter : N) : N * N :=
  let counter := ((counter + 1) mod 2 ^ 64)%N in (counter, counter).

(** [TransactionProcessor::isValidAmount] *)
Definition isValidAmount (amount : float) : bool :=
  PrimFloat.ltb 0 amount && PrimFloat.ltb amount 1000000000.

(** [TransactionProcessor::hasSufficientFunds] *)
Definition hasSufficientFunds (account : loc) (amount : float) : M bool :=
  let* b := getBalance account in
  ret (PrimFloat.leb amount b).

(** [TransactionProcessor::isAccountActive] *)
Definition isAccountActive (account : loc) : M bool := isActive account.

(** [TransactionProcessor::validateTransaction] *)
Definition validateTransaction (account : loc) (amount : float)
    (type : string) : M bool :=
  let* active := isAccountActive account in
  if negb active then ret false
  else if negb (isValidAmount amount) then ret false
  else if String.eqb type "WITHDRAW" || String.eqb type "TRANSFER" then
    let* enough := hasSufficientFunds account amount in
    if negb enough then ret false else ret true
  else ret true.

(** [TransactionProcessor::processDeposit] *)
Definition processDeposit (account : loc) (amount : float)
    (description : string) (counter : N) : M (TransactionResult * N) :=
  let* valid := validateTransaction account amount "DEPOSIT" in
  if negb valid then
    let '(id, counter) := generateTransactionId counter in
    let* b := getBalance account in
    ret ({| success := false; message := "Invalid deposit transaction";
            transactionId := id; newBalance := b |}, counter)
  else
    let* done := deposit account amount description in
    let* b := getBalance account in
    let '(id, counter) := generateTransactionId counter in
    if done then
      ret ({| success := true; message := "Deposit successful";
              transactionId := id; newBalance := b |}, counter)
    else
      ret ({| success := false; message := "Deposit failed";
              transactionId := id; newBalance := b |}, counter).

(** [TransactionProcessor::processWithdraw] *)
Definition processWithdraw (account : loc) (amount : float)
    (description : string) (counter : N) : M (TransactionResult * N) :=
  let* valid := validateTransaction account amount "WITHDRAW" in
  if negb valid then
    let '(id, counter) := generateTransactionId counter in
    let* b := getBalance account in
    ret ({| success := false; message := "Invalid withdrawal transaction";
            transactionId := id; newBalance := b |}, counter)
  else
    let* done := withdraw account amount description in
    let* b := getBalance account in
    let '(id, counter) := generateTransactionId counter in
    if done then
      ret ({| success := true; message := "Withdrawal successful";
              transactionId := id; newBalance := b |}, counter)
    else
      ret ({| success := false;
              message := "Insufficient funds for withdrawal";
              transactionId := id; newBalance := b |}, counter).

(** [TransactionProcessor::processTransfer] *)
Definition processTransfer (fromAccount toAccount : loc) (amount : float)
    (description : string) (counter : N) : M (TransactionResult * N) :=
  let* valid := validateTransaction fromAccount amount "TRANSFER" in
  if negb valid then
    let '(id, counter) := generateTransactionId counter in
    let* b := getBalance fromAccount in
    ret ({| success := false; message := "Invalid transfer transaction";
            transactionId := id; newBalance := b |}, counter)
  else
    let* done := transfer fromAccount toAccount amount description in
    let* b := getBalance fromAccount in
    let '(id, counter) := generateTransactionId counter in
    if done then
      ret ({| success := true; message := "Transfer successful";
              transactionId := id; newBalance := b |}, counter)
    else
      ret ({| success := false;
              message := "Transfer failed - insufficient funds";
              transactionId := id; newBalance := b |}, counter).

(** [TransactionProcessor::processBalanceCheck] *)
Definition processBalanceCheck (account : loc) (counter : N)
    : M (TransactionResult * N) :=
  let* b := getBalance account in
  let '(id, counter) := generateTransactionId counter in
  ret ({| success := true; message := "Balance check successful";
          transactionId := id; newBalance := b |}, counter).

End TransactionProcessor.

(** ** Notions for the pool *)

(** The workers that hold a task. *)
Definition holds_task (wk : ThreadPool.worker) : nat :=
  match wk with ThreadPool.Executing _ => 1 | _ => 0 end.

(** [Task::operator<], by which [std::priority_queue<Task>] orders the
    queue. *)
Definition Task_lt (a b : ThreadPool.Task) : bool :=
  (ThreadPool.priority a <? ThreadPool.priority b)%Z.

(** The task a worker holds between its pop and its next test of the
    loop. *)
Definition held (wk : ThreadPool.worker) : list ThreadPool.Task :=
  match wk with ThreadPool.Executing task => [task] | _ => [] end.

(** The tasks whose function is not empty ([if (task.function)]). *)
Definition callable (l : list ThreadPool.Task) : list ThreadPool.Task :=
  filter (fun task => is_Some (ThreadPool.function task)) l.

(** The tasks of the pool that are to be called or have been: those
    with a function in the queue and in the hands of the workers, and
    the finished ones. *)
Definition stored (p : ThreadPool.ThreadPool) : list ThreadPool.Task :=
  callable (ThreadPool.taskQueue p ++
            mjoin (held <$> ThreadPool.workers p)) ++
  ThreadPool.finished p.

(** The task an event hands to the pool: the one [submitTask] makes when
    it returns true. *)
Definition accepted_by (e : ThreadPool.event) (p : ThreadPool.ThreadPool)
    : list ThreadPool.Task :=
  match e with
  | ThreadPool.Submit task description =>
      if fst (ThreadPool.submitTask task description p) then
        [{| ThreadPool.function := task;
            ThreadPool.description := description;
            ThreadPool.priority := 0 |}]
      else []
  | _ => []
  end.

(** The tasks handed to the pool along a sequence of events. *)
Fixpoint accepted (es : list ThreadPool.event) (p : ThreadPool.ThreadPool)
    : list ThreadPool.Task :=
  match es with
  | [] => []
  | e :: es' =>
      accepted_by e p ++
      match ThreadPool.step e p with
      | Some p' => accepted es' p'
      | None => []
      end
  end.

(** Every worker of a new pool makes its first move. *)
Definition first_moves (threadCount : nat) : list ThreadPool.event :=
  (fun i => ThreadPool.Work i 0) <$> seq 0 threadCount.

(** ** Further concrete inputs *)

(** A random device that always gives the same value, and the state
    after [createAccount("Ann", 100.0)] with it. *)
Definition constant_random (i : nat) : Z := 0%Z.

Definition repeating : world :=
  {| heap :=
       <[0 := {| accountNumber := "MTBS-1000-1000";
                 accountHolderName := "Ann"; balance := 100;
                 transactionHistory :=
                   [Transaction_new "INIT_1" "" "MTBS-1000-1000"
                      TransactionType.DEPOSIT 100 "Initial deposit"];
                 accountMutex := Mutex_new |}]> ∅;
     transactionCounter := 1;
     bank :=
       {| config := example_config;
          accounts := <["MTBS-1000-1000" := 0]> ∅;
          accountsMutex := Mutex_new; totalTransactions := 0;
          successfulTransactions := 0; failedTransactions := 0 |};
     logged := [(INFO, "Account created: MTBS-1000-1000 for Ann")];
     random_device := constant_random; draws := 2 |}.

(** * Verification of [Account] *)

(** ** Symbolic execution of member functions *)

Lemma insert_over {A} (h : gmap loc A) (l1 l2 : loc) (x x' y : A) :
  l1 <> l2 ->
  <[l1 := x']> (<[l2 := y]> (<[l1 := x]> h)) = <[l1 := x']> (<[l2 := y]> h).
Proof.
  intros Hne. apply map_eq. intros i. rewrite !lookup_insert.
  repeat case_decide; congruence.
Qed.

(** Runs the monadic code of the goal as far as the hypotheses decide
    its tests. *)
Ltac exec :=
  repeat (first
    [ progress (cbv beta iota delta
                  [bind ret throw load store lock unlock lock_guard
                   next_transactionCounter addTransaction get_bank logMessage
                   set_heap set_bank set_transactionCounter set_logged
                   set_draws set_accounts set_accountsMutex
                   set_accountMutex set_balance set_transactionHistory
                   Mutex_lock Mutex_unlock Mutex_new])
    | progress (cbn [heap bank transactionCounter logged random_device draws
                     accountMutex balance transactionHistory accountNumber
                     accountHolderName kind depth Nat.pred negb andb
                     LogLevel_rank Nat.ltb Nat.leb
                     config accounts accountsMutex totalTransactions
                     successfulTransactions failedTransactions])
    | rewrite lookup_insert_eq
    | rewrite insert_insert_eq
    | rewrite lookup_insert_ne by congruence
    | rewrite insert_over by congruence
    | match goal with
      | H : heap _ !! _ = Some _ |- _ => rewrite H
      | H : accountMutex _ = _ |- _ => rewrite H
      | H : accountsMutex _ = _ |- _ => rewrite H
      | H : PrimFloat.leb _ _ = _ |- _ => rewrite H
      | H : PrimFloat.ltb _ _ = _ |- _ => rewrite H
      | H : PrimFloat.eqb _ _ = _ |- _ => rewrite H
      | H : String.ltb _ _ = _ |- _ => rewrite H
      end ]).

(** Writing an object back as it was read leaves the heap as it was. *)
Lemma insert_unchanged (h : gmap loc Account) (l : loc) (a : Account) m :
  h !! l = Some a -> accountMutex a = m ->
  <[l := {| accountNumber := accountNumber a;
            accountHolderName := accountHolderName a;
            balance := balance a;
            transactionHistory := transactionHistory a;
            accountMutex := m |}]> h = h.
Proof. intros H <-. destruct a; cbn. by apply insert_id. Qed.

Lemma world_eta (w : world) :
  {| heap := heap w; transactionCounter := transactionCounter w;
     bank := bank w; logged := logged w; random_device := random_device w;
     draws := draws w |} = w.
Proof. by destruct w. Qed.

Lemma Bank_eta (b : Bank) :
  {| config := config b; accounts := accounts b;
     accountsMutex := accountsMutex b;
     totalTransactions := totalTransactions b;
     successfulTransactions := successfulTransactions b;
     failedTransactions := failedTransactions b |} = b.
Proof. by destruct b. Qed.

Ltac restored :=
  repeat (rewrite insert_unchanged
            by (first [eassumption | by rewrite lookup_insert_ne by congruence]));
  rewrite ?Bank_eta, ?world_eta; reflexivity.

Ltac heap_eq :=
  do 2 f_equal; apply map_eq; intros ?; rewrite !lookup_insert;
  repeat case_decide; subst; try congruence;
  repeat match goal with H : heap _ !! _ = Some _ |- _ => rewrite H end;
  f_equal;
  match goal with |- _ = ?x => destruct x; cbn in *; congruence end.

Lemma string_ltb_irrefl (s : string) : String.ltb s s = false.
Proof.
  unfold String.ltb.
  assert (String.compare s s = Eq) as ->; [|reflexivity].
  induction s as [|c s IH]; cbn; [reflexivity|].
  unfold Ascii.compare. by rewrite N.compare_refl.
Qed.

(** ** One account *)

Section OneAccount.

Variables (w : world) (this : loc) (a : Account).
Hypothesis this_live : heap w !! this = Some a.

(** *** Amounts that are not positive: the call returns false and the
    state is the one before the call *)

Lemma deposit_nonpositive amount description :
  depth (accountMutex a) = 0 ->
  PrimFloat.leb amount 0 = true ->
  deposit this amount description w = Returned false w.
Proof using this_live.
  intros Hd Hamt. unfold deposit.
  destruct (accountMutex a) as [k dp] eqn:Hm; cbn in Hd; subst dp.
  exec. restored.
Qed.

Lemma withdraw_nonpositive amount description :
  depth (accountMutex a) = 0 ->
  PrimFloat.leb amount 0 = true ->
  withdraw this amount description w = Returned false w.
Proof using this_live.
  intros Hd Hamt. unfold withdraw.
  destruct (accountMutex a) as [k dp] eqn:Hm; cbn in Hd; subst dp.
  exec. restored.
Qed.

(** *** The other amounts, with the [std::mutex] the class declares *)

Hypothesis this_free : accountMutex a = Mutex_new.

(** Outside of any operation, as in the constructor, [addTransaction]
    appends the record. *)
Lemma addTransaction_free transaction :
  addTransaction this transaction w =
  Returned tt
    (set_heap
       (<[this := set_transactionHistory
                    (transactionHistory a ++ [transaction]) a]> (heap w)) w).
Proof using this_live this_free.
  exec. destruct a; cbn in *; subst. reflexivity.
Qed.

(** Inside an operation it locks the mutex the operation holds. *)
Lemma addTransaction_held transaction b n :
  addTransaction this transaction (inside w this a b n) =
  Relock (AccountMutex this) (inside w this a b n).
Proof using this_live this_free.
  unfold inside. exec. reflexivity.
Qed.

Lemma deposit_relock amount description :
  PrimFloat.leb amount 0 = false ->
  deposit this amount description w =
  Relock (AccountMutex this)
    (inside w this a (balance a + amount)
       ((transactionCounter w + 1) mod 2 ^ 64)).
Proof using this_live this_free.
  intros Hamt. unfold deposit, inside. exec. reflexivity.
Qed.

Lemma withdraw_relock amount description :
  PrimFloat.leb amount 0 = false ->
  withdraw this amount description w =
  Relock (AccountMutex this)
    (inside w this a
       (if PrimFloat.ltb (balance a) amount then balance a
        else (balance a - amount)%float)
       ((transactionCounter w + 1) mod 2 ^ 64)).
Proof using this_live this_free.
  intros Hamt. unfold withdraw, inside.
  destruct (PrimFloat.ltb (balance a) amount) eqn:Hlt; exec; reflexivity.
Qed.

(** A transfer of an account to itself locks [lock2] and then [lock1],
    which are one mutex, before it looks at the amount. *)
Lemma self_transfer_relock amount description :
  transfer this this amount description w =
  Relock (AccountMutex this) (inside w this a (balance a) (transactionCounter w)).
Proof using this_live this_free.
  unfold transfer, inside. exec.
  rewrite string_ltb_irrefl. exec. reflexivity.
Qed.

Lemma inside_lookup b n :
  heap (inside w this a b n) !! this =
  Some (set_balance b
          (set_accountMutex {| kind := std_mutex; depth := 1 |} a)).
Proof. unfold inside. cbn. apply lookup_insert_eq. Qed.

Lemma inside_relocks {A} (o : outcome A) b n :
  o = Relock (AccountMutex this) (inside w this a b n) -> relocks o this.
Proof.
  intros ->. eexists _, _. split; [reflexivity|].
  split; [apply inside_lookup|reflexivity].
Qed.

End OneAccount.

(** ** Two accounts *)

Section TwoAccounts.

Variables (w : world) (this target : loc) (a t : Account).
Hypothesis distinct : this <> target.
Hypothesis this_live : heap w !! this = Some a.
Hypothesis target_live : heap w !! target = Some t.

Lemma transfer_nonpositive amount description :
  depth (accountMutex a) = 0 -> depth (accountMutex t) = 0 ->
  PrimFloat.leb amount 0 = true ->
  transfer this target amount description w = Returned false w.
Proof using distinct this_live target_live.
  intros Ha Ht Hamt. unfold transfer.
  destruct (accountMutex a) as [k dp] eqn:Hm; cbn in Ha; subst dp.
  destruct (accountMutex t) as [k' dp] eqn:Hm'; cbn in Ht; subst dp.
  destruct (String.ltb (accountNumber a) (accountNumber t)) eqn:Ho;
    exec; restored.
Qed.

Hypothesis this_free : accountMutex a = Mutex_new.
Hypothesis target_free : accountMutex t = Mutex_new.

Lemma transfer_relock amount description :
  PrimFloat.leb amount 0 = false ->
  transfer this target amount description w =
  Relock (AccountMutex this)
    (if PrimFloat.ltb (balance a) amount
     then inside2 w this target a t (balance a) (balance t)
            ((transactionCounter w + 1) mod 2 ^ 64)
     else inside2 w this target a t
            (balance a - amount)%float (balance t + amount)%float
            ((transactionCounter w + 1) mod 2 ^ 64)).
Proof using distinct this_live target_live this_free target_free.
  intros Hamt. unfold transfer, inside2.
  destruct (String.ltb (accountNumber a) (accountNumber t)) eqn:Ho;
    destruct (PrimFloat.ltb (balance a) amount) eqn:Hlt;
    exec; first [reflexivity | heap_eq].
Qed.

Lemma inside2_lookup_this b bt n :
  heap (inside2 w this target a t b bt n) !! this =
  Some (set_balance b
          (set_accountMutex {| kind := std_mutex; depth := 1 |} a)).
Proof using distinct.
  unfold inside2. cbn. rewrite lookup_insert_ne by congruence.
  apply lookup_insert_eq.
Qed.

End TwoAccounts.

(** ** What the code goes on to do over re-entrant mutexes *)

Section Reentrant.

Variables (w : world) (this : loc) (a : Account).
Hypothesis this_live : heap w !! this = Some a.
Hypothesis this_reentrant : accountMutex a = Mutex_recursive.

Lemma deposit_reentrant amount description :
  PrimFloat.leb amount 0 = false ->
  let n := ((transactionCounter w + 1) mod 2 ^ 64)%N in
  deposit this amount description w =
  Returned true
    (set_transactionCounter n
       (set_heap (recorded (heap w) this a (balance a + amount)%float
                    (deposit_record n a amount description)) w)).
Proof using this_live this_reentrant.
  intros Hamt n. unfold deposit, recorded, Mutex_recursive in *. exec.
  reflexivity.
Qed.

Lemma withdraw_reentrant amount description :
  PrimFloat.leb amount 0 = false ->
  let n := ((transactionCounter w + 1) mod 2 ^ 64)%N in
  withdraw this amount description w =
  if PrimFloat.ltb (balance a) amount then
    Returned false
      (set_transactionCounter n
         (set_heap (recorded (heap w) this a (balance a)
                      (withdraw_record n a amount description
                         TransactionStatus.INSUFFICIENT_FUNDS)) w))
  else
    Returned true
      (set_transactionCounter n
         (set_heap (recorded (heap w) this a (balance a - amount)%float
                      (withdraw_record n a amount description
                         TransactionStatus.SUCCESS)) w)).
Proof using this_live this_reentrant.
  intros Hamt n. unfold withdraw, recorded, Mutex_recursive in *.
  destruct (PrimFloat.ltb (balance a) amount) eqn:Hlt; exec; reflexivity.
Qed.

End Reentrant.

Section ReentrantTransfer.

Variables (w : world) (this target : loc) (a t : Account).
Hypothesis distinct : this <> target.
Hypothesis this_live : heap w !! this = Some a.
Hypothesis target_live : heap w !! target = Some t.
Hypothesis this_reentrant : accountMutex a = Mutex_recursive.

Lemma transfer_reentrant amount description :
  accountMutex t = Mutex_recursive ->
  PrimFloat.leb amount 0 = false ->
  let n := ((transactionCounter w + 1) mod 2 ^ 64)%N in
  transfer this target amount description w =
  if PrimFloat.ltb (balance a) amount then
    Returned false
      (set_transactionCounter n
         (set_heap (recorded (heap w) this a (balance a)
                      (transfer_record n a t amount description
                         TransactionStatus.INSUFFICIENT_FUNDS)) w))
  else
    Returned true
      (set_transactionCounter n
         (set_heap
            (recorded
               (recorded (heap w) this a (balance a - amount)%float
                  (transfer_record n a t amount description
                     TransactionStatus.SUCCESS))
               target t (balance t + amount)%float
               (transfer_record n a t amount description
                  TransactionStatus.SUCCESS)) w)).
Proof using distinct this_live target_live this_reentrant.
  intros Ht Hamt n. unfold transfer, recorded, Mutex_recursive in *.
  destruct (String.ltb (accountNumber a) (accountNumber t)) eqn:Ho;
    destruct (PrimFloat.ltb (balance a) amount) eqn:Hlt; exec;
    first [reflexivity | heap_eq].
Qed.

(** With only the source re-entrant, a funded transfer gets as far as the
    record of the destination. *)
Lemma transfer_relock_target amount description :
  accountMutex t = Mutex_new ->
  PrimFloat.leb amount 0 = false ->
  PrimFloat.ltb (balance a) amount = false ->
  let n := ((transactionCounter w + 1) mod 2 ^ 64)%N in
  transfer this target amount description w =
  Relock (AccountMutex target)
    (set_transactionCounter n
       (set_heap
          (<[target := set_balance (balance t + amount)%float
                         (set_accountMutex
                            {| kind := std_mutex; depth := 1 |} t)]>
             (<[this := set_accountMutex
                          {| kind := std_recursive_mutex; depth := 1 |}
                          (set_transactionHistory
                             (transactionHistory a ++
                              [transfer_record n a t amount description
                                 TransactionStatus.SUCCESS])
                             (set_balance (balance a - amount)%float a))]>
                (heap w))) w)).
Proof using distinct this_live target_live this_reentrant.
  intros Ht Hamt Hlt n. unfold transfer, Mutex_recursive in *.
  destruct (String.ltb (accountNumber a) (accountNumber t)) eqn:Ho;
    exec; first [reflexivity | heap_eq].
Qed.

End ReentrantTransfer.

(** * Verification of [Bank] *)

Lemma registry_ok_mutex w :
  registry_ok w = true -> depth (accountsMutex (bank w)) = 0.
Proof.
  unfold registry_ok. intros [H _]%andb_prop. by apply Nat.eqb_eq.
Qed.

Lemma registry_ok_lookup w n l :
  registry_ok w = true -> accounts (bank w) !! n = Some l ->
  validateAccountNumber n = true /\
  exists a, heap w !! l = Some a /\ depth (accountMutex a) = 0.
Proof.
  unfold registry_ok. intros [_ H]%andb_prop Hl.
  rewrite forallb_forall in H.
  assert (In (n, l) (map_to_list (accounts (bank w)))) as Hin.
  { apply list_elem_of_In. by apply elem_of_map_to_list. }
  apply H in Hin. cbn in Hin. apply andb_prop in Hin as [Hv Ha].
  split; [exact Hv|].
  destruct (heap w !! l) as [a|]; [|discriminate].
  exists a. split; [reflexivity|]. by apply Nat.eqb_eq.
Qed.

Lemma bank_unlocked (b : Bank) k :
  accountsMutex b = {| kind := k; depth := 0 |} ->
  {| config := config b; accounts := accounts b;
     accountsMutex := {| kind := k; depth := 0 |};
     totalTransactions := totalTransactions b;
     successfulTransactions := successfulTransactions b;
     failedTransactions := failedTransactions b |} = b.
Proof. intros <-. by destruct b. Qed.

Ltac bank_free :=
  match goal with
  | H : depth (accountsMutex (bank ?w)) = 0 |- _ =>
      let k := fresh "k" in let dp := fresh "dp" in let Hm := fresh "Hm" in
      destruct (accountsMutex (bank w)) as [k dp] eqn:Hm; cbn in H; subst dp
  end.

Lemma getAccount_absent w n :
  depth (accountsMutex (bank w)) = 0 ->
  validateAccountNumber n = false \/ accounts (bank w) !! n = None ->
  getAccount n w = Returned None w.
Proof.
  intros Hd Habs. unfold getAccount.
  destruct (validateAccountNumber n) eqn:Hv; cbn [negb]; [|reflexivity].
  destruct Habs as [?|Habs]; [discriminate|].
  bank_free. exec. rewrite Habs. rewrite (bank_unlocked _ _ Hm), world_eta.
  reflexivity.
Qed.

Lemma getBalance_free w l a :
  heap w !! l = Some a -> depth (accountMutex a) = 0 ->
  getBalance l w = Returned (balance a) w.
Proof.
  intros Hl Hd. unfold getBalance.
  destruct (accountMutex a) as [k dp] eqn:Hm; cbn in Hd; subst dp.
  exec. restored.
Qed.

Lemma closeAccount_absent w n :
  depth (accountsMutex (bank w)) = 0 ->
  validateAccountNumber n = false \/ accounts (bank w) !! n = None ->
  closeAccount n w = Returned false w.
Proof.
  intros Hd Habs. unfold closeAccount.
  destruct (validateAccountNumber n) eqn:Hv; cbn [negb]; [|reflexivity].
  destruct Habs as [?|Habs]; [discriminate|].
  bank_free. exec. rewrite Habs. exec.
  rewrite (bank_unlocked _ _ Hm), world_eta. reflexivity.
Qed.

Lemma closeAccount_present w n l a :
  depth (accountsMutex (bank w)) = 0 ->
  validateAccountNumber n = true ->
  accounts (bank w) !! n = Some l ->
  heap w !! l = Some a -> depth (accountMutex a) = 0 ->
  closeAccount n w =
  if PrimFloat.eqb (balance a) 0 then Returned true (closed n w)
  else Returned false w.
Proof.
  intros Hd Hv Hn Hl Ha. unfold closeAccount, closed. rewrite Hv. cbn [negb].
  bank_free.
  destruct (accountMutex a) as [ka dp] eqn:Hma; cbn in Ha; subst dp.
  unfold getBalance.
  destruct (PrimFloat.eqb (balance a) 0) eqn:Hz; exec; rewrite Hn; exec.
  - rewrite (insert_unchanged _ _ _ _ Hl Hma).
    destruct (enableAuditLogging (config (bank w))); exec; reflexivity.
  - rewrite (insert_unchanged _ _ _ _ Hl Hma).
    rewrite (bank_unlocked _ _ Hm), world_eta. reflexivity.
Qed.

Lemma registry_ok_iff w :
  registry_ok w = true <->
  depth (accountsMutex (bank w)) = 0 /\
  map_Forall (fun n l =>
                validateAccountNumber n = true /\
                exists a, heap w !! l = Some a /\ depth (accountMutex a) = 0)
             (accounts (bank w)).
Proof.
  split.
  - intros H. split; [by apply registry_ok_mutex|].
    intros n l Hl. by apply registry_ok_lookup.
  - intros [Hd Hall]. unfold registry_ok. apply andb_true_intro. split.
    { by apply Nat.eqb_eq. }
    apply forallb_forall. intros [n l] Hin.
    apply list_elem_of_In, elem_of_map_to_list in Hin.
    destruct (Hall n l Hin) as (Hv & a & Ha & Hda). cbn.
    rewrite Hv, Ha. cbn. by apply Nat.eqb_eq.
Qed.

Lemma registry_ok_new cfg rd : registry_ok (world_new cfg rd) = true.
Proof. apply registry_ok_iff. split; [reflexivity|]. apply map_Forall_empty. Qed.

Lemma string_length_app (s1 s2 : string) :
  String.length (s1 +:+ s2) = String.length s1 + String.length s2.
Proof. induction s1 as [|c s1 IH]; simpl; [reflexivity|]. by f_equal. Qed.

Lemma fill_string_length n c : String.length (fill_string n c) = n.
Proof. induction n as [|n IH]; simpl; [reflexivity|]. by f_equal. Qed.

Lemma setw_length width fill field :
  width <= String.length (setw width fill field).
Proof. unfold setw. rewrite string_length_app, fill_string_length. lia. Qed.

Lemma generateAccountNumber_valid w :
  exists n, generateAccountNumber w = Returned n (set_draws (S (S (draws w))) w)
            /\ validateAccountNumber n = true.
Proof.
  eexists. split; [reflexivity|].
  unfold validateAccountNumber, isValidAccountNumber.
  apply andb_true_intro. split; [reflexivity|].
  apply Nat.leb_le. rewrite !string_length_app.
  pose proof (setw_length 4 "0"%char
    (pretty (1000 + random_device w (draws w) `mod` 9000)%Z)).
  cbn [String.length]. lia.
Qed.

Lemma createAccount_throws w holderName initialBalance e :
  depth (accountsMutex (bank w)) = 0 ->
  createAccount_error holderName initialBalance w = Some e ->
  createAccount holderName initialBalance w = Thrown e w.
Proof.
  intros Hd. unfold createAccount_error, createAccount.
  destruct (String.eqb holderName ""); [by intros [= <-]|].
  destruct (negb (isValidInitialBalance initialBalance)); [by intros [= <-]|].
  unfold getTotalAccounts. bank_free. exec.
  rewrite (bank_unlocked _ _ Hm), world_eta.
  destruct (_ <=? _)%N; [by intros [= <-]|discriminate].
Qed.

Lemma initial_balance_not_negative b :
  isValidInitialBalance b = true -> PrimFloat.ltb b 0 = false.
Proof.
  unfold isValidInitialBalance. intros [H _]%andb_prop.
  destruct (PrimFloat.ltb b 0) eqn:Hlt; [|reflexivity].
  rewrite ltb_spec in Hlt. rewrite leb_spec in H.
  change (Prim2SF 0) with (S754_zero false) in *.
  destruct (Prim2SF b) as [[]|[]| |[] m e]; cbn in *; discriminate.
Qed.

Lemma fresh_unallocated (h : gmap loc Account) : h !! fresh (dom h) = None.
Proof. apply not_elem_of_dom. apply is_fresh. Qed.

Lemma createAccount_returns w holderName initialBalance :
  registry_ok w = true ->
  createAccount_error holderName initialBalance w = None ->
  exists n w' a',
    createAccount holderName initialBalance w = Returned n w' /\
    registry_ok w' = true /\
    accounts (bank w') = <[n := fresh (dom (heap w))]> (accounts (bank w)) /\
    heap w' = <[fresh (dom (heap w)) := a']> (heap w) /\
    accountNumber a' = n /\ balance a' = initialBalance.
Proof.
  intros Hok. pose proof (registry_ok_mutex _ Hok) as Hd.
  apply registry_ok_iff in Hok as [_ Hall].
  unfold createAccount_error, createAccount.
  destruct (String.eqb holderName ""); [discriminate|].
  destruct (isValidInitialBalance initialBalance) eqn:Hb; [|discriminate].
  cbn [negb]. apply initial_balance_not_negative in Hb.
  unfold getTotalAccounts. bank_free. exec.
  destruct (_ <=? _)%N; [discriminate|]. intros _.
  rewrite (bank_unlocked _ _ Hm), world_eta.
  destruct (generateAccountNumber_valid w) as (n & Hgen & Hn).
  rewrite Hgen. clear Hgen. unfold Account_new. exec.
  pose proof (fresh_unallocated (heap w)) as Hfresh.
  set (this := fresh (dom (heap w))) in *.
  assert (forall (m : string) (l : loc),
             accounts (bank w) !! m = Some l -> l <> this) as Hold.
  { intros m l Hl Heq. destruct (Hall m l Hl) as (_ & a & Ha & _).
    rewrite Heq in Ha. congruence. }
  destruct (PrimFloat.ltb 0 initialBalance) eqn:Hpos; exec;
    destruct (enableAuditLogging (config (bank w))); exec;
    eexists _, _, _; (split; [reflexivity|]);
    (split; [|cbn; repeat split; reflexivity]);
    apply registry_ok_iff; cbn; (split; [reflexivity|]);
    (apply map_Forall_insert_2;
     [ split; [exact Hn|]; rewrite lookup_insert_eq; eexists; split; reflexivity
     | intros m l Hl; destruct (Hall m l Hl) as (Hv & a & Ha & Hda);
       split; [exact Hv|]; exists a;
       rewrite lookup_insert_ne by (apply not_eq_sym; eauto); by split ]).
Qed.

(** * Verification of [ThreadPool] *)

Section ThreadPoolFacts.

Import ThreadPool.

Lemma stop_join_Some p joined :
  stop_join p = Some joined ->
  Forall (fun wk => wk = Exited) (workers p) /\
  workers joined = [] /\ taskQueue joined = taskQueue p /\
  running joined = running p /\ finished joined = finished p.
Proof.
  unfold stop_join. destruct (forallb has_exited (workers p)) eqn:Hall;
    [|discriminate].
  intros [= <-]. split; [|by cbn].
  apply Forall_forall. intros wk Hin.
  rewrite forallb_forall in Hall. apply list_elem_of_In, Hall in Hin.
  by destruct wk.
Qed.

(** A move of a worker changes neither [workers] nor [running], and only
    ever appends to [finished]. *)
Lemma workerFunction_frame k wk p wk' p' :
  workerFunction k wk p = Some (wk', p') ->
  workers p' = workers p /\ running p' = running p /\
  (finished p' = finished p \/
   exists task, wk = Executing task /\ function task <> None /\
                finished p' = finished p ++ [task]).
Proof.
  destruct wk as [| |task|]; cbn.
  - intros [= <- <-]. auto.
  - destruct (taskQueue p) as [|t0 q] eqn:Hq.
    + destruct (running p) eqn:Hr; [discriminate|]. intros [= <- <-]. auto.
    + destruct (_ !! k) as [task|]; [|discriminate].
      destruct (is_top _ task); [|discriminate]. intros [= <- <-]. cbn. auto.
  - intros [= <- <-]. cbn. destruct (function task) eqn:Hf; [|auto].
    do 2 (split; [reflexivity|]). right. exists task. rewrite Hf. by auto.
  - discriminate.
Qed.

(** *** Without workers nothing is executed *)

Lemma step_no_workers e p p' :
  workers p = [] -> step e p = Some p' ->
  workers p' = [] /\ finished p' = finished p /\
  exists later, taskQueue p' = taskQueue p ++ later.
Proof.
  intros Hw. destruct e as [|task d| | |i k]; cbn.
  - intros [= <-]. unfold start. destruct (negb (running p)); cbn;
      repeat split; try done; exists []; by rewrite app_nil_r.
  - intros [= <-]. unfold submitTask. destruct (negb (running p)); cbn;
      repeat split; try done; eexists; [by rewrite app_nil_r | reflexivity].
  - intros [= <-]. cbn. repeat split; try done. exists []. by rewrite app_nil_r.
  - intros (_ & ? & Hq & _ & ?)%stop_join_Some. repeat split; try done.
    exists []. by rewrite app_nil_r.
  - rewrite Hw. discriminate.
Qed.

Lemma run_no_workers es p p' :
  workers p = [] -> run es p = Some p' ->
  workers p' = [] /\ finished p' = finished p /\
  exists later, taskQueue p' = taskQueue p ++ later.
Proof.
  revert p. induction es as [|e es IH]; intros p Hw; cbn.
  - intros [= <-]. repeat split; try done. exists []. by rewrite app_nil_r.
  - destruct (step e p) as [p1|] eqn:Hstep; [|discriminate]. intros Hrun.
    destruct (step_no_workers _ _ _ Hw Hstep) as (Hw1 & Hf1 & l1 & Hq1).
    destruct (IH _ Hw1 Hrun) as (Hw' & Hf' & l2 & Hq').
    repeat split; [done|congruence|].
    exists (l1 ++ l2). rewrite Hq', Hq1. by rewrite app_assoc.
Qed.

(** *** A task in execution is brought to its end *)

Lemma step_underway e p p' task :
  function task <> None ->
  step e p = Some p' -> underway task p -> underway task p'.
Proof.
  intros Hf. unfold underway. destruct e as [|f d| | |i k]; cbn.
  - intros [= <-]. unfold start. by destruct (negb (running p)).
  - intros [= <-]. unfold submitTask. by destruct (negb (running p)).
  - by intros [= <-].
  - intros (Hall & Hw & _ & _ & ->)%stop_join_Some [?|Hin]; [by left|].
    rewrite Forall_forall in Hall. by apply Hall in Hin.
  - destruct (workers p !! i) as [wk|] eqn:Hi; [|discriminate].
    destruct (workerFunction k wk p) as [[wk' p1]|] eqn:Hwf; [|discriminate].
    intros [= <-]. cbn.
    destruct (workerFunction_frame _ _ _ _ _ Hwf) as (Hw & _ & Hfin).
    rewrite Hw. intros [Hin|Hin].
    + left. destruct Hfin as [->|(t & _ & _ & ->)]; [done|].
      apply elem_of_app. by left.
    + apply list_elem_of_lookup in Hin as [j Hj].
      destruct (decide (i = j)) as [<-|Hne].
      * rewrite Hi in Hj. injection Hj as ->.
        destruct Hfin as [Hsame|(t & [= <-] & _ & ->)].
        -- cbn in Hwf. destruct (function task) eqn:Hft; [|done].
           injection Hwf as <- <-. cbn in Hsame.
           apply (f_equal length) in Hsame. rewrite length_app in Hsame.
           cbn in Hsame. lia.
        -- left. apply elem_of_app. right. by apply list_elem_of_singleton.
      * right. apply list_elem_of_lookup. exists j.
        by rewrite list_lookup_insert_ne.
Qed.

Lemma run_underway es p p' task :
  function task <> None ->
  run es p = Some p' -> underway task p -> underway task p'.
Proof.
  intros Hf. revert p. induction es as [|e es IH]; intros p; cbn.
  - by intros [= <-].
  - destruct (step e p) as [p1|] eqn:Hstep; [|discriminate].
    intros Hrun Hu. apply (IH p1 Hrun). by eapply step_underway.
Qed.

(** *** After the stop request each worker finishes at most one task *)

Lemma sum_list_insert (f : worker -> nat) (l : list worker) i x y :
  l !! i = Some x ->
  sum_list (f <$> <[i := y]> l) + f x = sum_list (f <$> l) + f y.
Proof.
  revert i. induction l as [|z l IH]; intros [|i]; try discriminate.
  - intros [= ->]. cbn. lia.
  - intros Hi. specialize (IH i Hi).
    change (f z + sum_list (f <$> <[i := y]> l) + f x =
            f z + sum_list (f <$> l) + f y). lia.
Qed.

Lemma step_outstanding e p p' :
  e <> Start -> running p = false -> step e p = Some p' ->
  running p' = false /\ outstanding p' <= outstanding p.
Proof.
  intros Hne Hr. unfold outstanding. destruct e as [|f d| | |i k]; cbn.
  - done.
  - intros [= <-]. unfold submitTask. rewrite Hr. cbn. by split.
  - intros [= <-]. cbn. by split.
  - intros (_ & -> & _ & -> & ->)%stop_join_Some. cbn. split; [done|lia].
  - destruct (workers p !! i) as [wk|] eqn:Hi; [|discriminate].
    destruct (workerFunction k wk p) as [[wk' p1]|] eqn:Hwf; [|discriminate].
    intros [= <-]. cbn.
    pose proof (sum_list_insert may_finish (workers p) i wk wk' Hi) as Hsum.
    destruct wk as [| |task|]; cbn in Hwf.
    + injection Hwf as <- <-. rewrite Hr in *. cbn in *. split; [done|lia].
    + destruct (taskQueue p) as [|t0 q] eqn:Hq.
      * rewrite Hr in Hwf. injection Hwf as <- <-. cbn in *. split; [done|lia].
      * destruct (_ !! k) as [task|]; [|discriminate].
        destruct (is_top _ task); [|discriminate].
        injection Hwf as <- <-. cbn in *. split; [done|].
        destruct (function task); lia.
    + injection Hwf as <- <-. cbn in *. split; [done|].
      destruct (function task); rewrite ?length_app; cbn; lia.
    + discriminate.
Qed.

End ThreadPoolFacts.

(** * Results *)

(** The state [opened] is the one three calls of [Bank::createAccount]
    build from a new bank. *)
Lemma opened_by_createAccount :
  (createAccount "Ann" 100 ;; createAccount "Bob" 50 ;; createAccount "Cid" 0)
    (world_new example_config example_random) =
  Returned "MTBS-5936-7170" opened.
Proof. vm_compute. reflexivity. Qed.

Lemma opened_ok : registry_ok opened = true.
Proof. vm_compute. reflexivity. Qed.

(** ** Deposits and withdrawals *)

Lemma apply_operations_cons this op rest w :
  apply_operations this (op :: rest) w =
  match apply_operation this op w with
  | Returned r w' =>
      match apply_operations this rest w' with
      | Returned rs w'' => Returned (r :: rs) w''
      | Thrown e w'' => Thrown e w''
      | Relock m w'' => Relock m w''
      | Dangling l => Dangling l
      end
  | Thrown e w' => Thrown e w'
  | Relock m w' => Relock m w'
  | Dangling l => Dangling l
  end.
Proof. reflexivity. Qed.

(** C1 (the code departs from the claim).  The claim has every sequence
    of deposits and withdrawals on an account end with the balance
    initial + successful deposits - successful withdrawals.  In the code
    the first operation of the sequence whose amount is not refused by
    [amount <= 0] never returns: it takes the mutex of the account,
    [addTransaction] takes it again, and the thread stays there with the
    mutex held, some balance [b] written, and the history as it was. *)
Theorem operations_stop_at_first_positive_amount
    (w : world) (this : loc) (a : Account) (ops : list operation) :
  heap w !! this = Some a ->
  accountMutex a = Mutex_new ->
  Exists (fun op => PrimFloat.leb (operation_amount op) 0 = false) ops ->
  exists b n,
    apply_operations this ops w =
    Relock (AccountMutex this) (inside w this a b n).
Proof.
  intros Hlive Hfree Hex. induction ops as [|op rest IH].
  { by apply Exists_nil in Hex. }
  rewrite apply_operations_cons.
  destruct (PrimFloat.leb (operation_amount op) 0) eqn:Hamt.
  - apply Exists_cons in Hex as [Hhd|Htl]; [congruence|].
    destruct (IH Htl) as (b & n & Hrest).
    assert (apply_operation this op w = Returned false w) as ->.
    { destruct op; cbn in *;
        [eapply deposit_nonpositive | eapply withdraw_nonpositive];
        eauto; by rewrite Hfree. }
    rewrite Hrest. by exists b, n.
  - destruct op as [amount description|amount description]; cbn in *.
    + rewrite (deposit_relock w this a Hlive Hfree _ _ Hamt). by eexists _, _.
    + rewrite (withdraw_relock w this a Hlive Hfree _ _ Hamt). by eexists _, _.
Qed.

Lemma operations_stop_at_first_positive_amount_witness :
  exists b n,
    apply_operations 0 [Deposit 500 "Salary deposit"] opened =
    Relock (AccountMutex 0) (inside opened 0 ann b n).
Proof.
  apply (operations_stop_at_first_positive_amount opened 0 ann
           [Deposit 500 "Salary deposit"]).
  - reflexivity.
  - reflexivity.
  - apply Exists_cons_hd. reflexivity.
Defined.

(** The deposit of main.cpp on the first account: the balance reads 600,
    no record was added, and the call has not returned. *)
Lemma first_deposit_of_main :
  deposit 0 500 "Salary deposit" opened =
  Relock (AccountMutex 0) (inside opened 0 ann 600 3).
Proof. by rewrite (deposit_relock opened 0 ann). Qed.

(** C6 (the code departs from the claim in its second half).  An amount
    that is not positive makes [deposit] and [withdraw] return false with
    the state untouched, as the claim says.  A withdrawal of more than the
    balance does not return false and does not append the
    INSUFFICIENT_FUNDS record: it stops in [addTransaction] on the mutex
    [withdraw] holds, with the balance and the history as they were. *)
Theorem withdraw_beyond_balance_blocks
    (w : world) (this : loc) (a : Account) (amount : float)
    (description : string) :
  heap w !! this = Some a ->
  accountMutex a = Mutex_new ->
  (PrimFloat.leb amount 0 = true ->
   deposit this amount description w = Returned false w /\
   withdraw this amount description w = Returned false w) /\
  (PrimFloat.leb amount 0 = false ->
   PrimFloat.ltb (balance a) amount = true ->
   withdraw this amount description w =
   Relock (AccountMutex this)
     (inside w this a (balance a) ((transactionCounter w + 1) mod 2 ^ 64))).
Proof.
  intros Hlive Hfree. split.
  - intros Hamt. split;
      [eapply deposit_nonpositive | eapply withdraw_nonpositive];
      eauto; by rewrite Hfree.
  - intros Hamt Hlt.
    rewrite (withdraw_relock w this a Hlive Hfree _ _ Hamt). by rewrite Hlt.
Qed.

Lemma withdraw_beyond_balance_blocks_witness :
  withdraw 1 1050 "Overdraft test" opened =
  Relock (AccountMutex 1) (inside opened 1 bob 50 3).
Proof.
  apply (withdraw_beyond_balance_blocks opened 1 bob 1050 "Overdraft test");
    reflexivity.
Defined.

(** ** Transfers *)

(** C2 (the code departs from the claim in its second and third parts).
    Between two distinct accounts a transfer of an amount that is not
    positive returns false and leaves the state untouched, as the claim
    says.  For every other amount the call does not return: with
    insufficient funds it stops before any record is appended, with both
    balances as they were; otherwise it stops after the debit and the
    credit and before the first of the two records.  Both mutexes stay
    held. *)
Theorem transfer_stops_before_its_records
    (w : world) (this target : loc) (a t : Account) (amount : float)
    (description : string) :
  this <> target ->
  heap w !! this = Some a ->
  heap w !! target = Some t ->
  accountMutex a = Mutex_new ->
  accountMutex t = Mutex_new ->
  (PrimFloat.leb amount 0 = true ->
   transfer this target amount description w = Returned false w) /\
  (PrimFloat.leb amount 0 = false ->
   transfer this target amount description w =
   Relock (AccountMutex this)
     (if PrimFloat.ltb (balance a) amount
      then inside2 w this target a t (balance a) (balance t)
             ((transactionCounter w + 1) mod 2 ^ 64)
      else inside2 w this target a t
             (balance a - amount)%float (balance t + amount)%float
             ((transactionCounter w + 1) mod 2 ^ 64))).
Proof.
  intros Hne Hlive Hlive' Hfree Hfree'. split.
  - intros Hamt. eapply transfer_nonpositive; eauto;
      [by rewrite Hfree | by rewrite Hfree'].
  - intros Hamt. by apply transfer_relock.
Qed.

Lemma transfer_stops_before_its_records_witness :
  transfer 0 2 30 "Loan repayment" opened =
  Relock (AccountMutex 0) (inside2 opened 0 2 ann cid 70 30 3).
Proof.
  apply (transfer_stops_before_its_records opened 0 2 ann cid 30
           "Loan repayment"); try reflexivity.
  discriminate.
Defined.

(** The same transfer with more than the source holds. *)
Lemma unfunded_transfer_of_main :
  transfer 0 2 150 "Loan repayment" opened =
  Relock (AccountMutex 0) (inside2 opened 0 2 ann cid 100 0 3).
Proof. by rewrite (transfer_relock opened 0 2 ann cid). Qed.

(** ** The lock of an account is taken twice *)

(** C3.  [addTransaction] locks the mutex of its account, and every
    operation that appends a record calls it while it holds that mutex:
    [deposit], [withdraw] whether the funds suffice or not, and
    [transfer] for the record of the source.  The record of the
    destination comes after the one of the source; with the mutex of the
    source made re-entrant, so that the code gets there, the call stops
    on the mutex of the destination in the same way. *)
Theorem record_appending_paths_relock
    (w : world) (this target : loc) (a t : Account) (amount : float)
    (description : string) :
  this <> target ->
  heap w !! this = Some a ->
  heap w !! target = Some t ->
  accountMutex a = Mutex_new ->
  accountMutex t = Mutex_new ->
  PrimFloat.leb amount 0 = false ->
  (forall transaction b n,
     addTransaction this transaction (inside w this a b n) =
     Relock (AccountMutex this) (inside w this a b n)) /\
  relocks (deposit this amount description w) this /\
  relocks (withdraw this amount description w) this /\
  relocks (transfer this target amount description w) this /\
  (PrimFloat.ltb (balance a) amount = false ->
   relocks (transfer this target amount description (reentrant this a w))
           target).
Proof.
  intros Hne Hlive Hlive' Hfree Hfree' Hamt.
  split; [|split; [|split; [|split]]].
  - intros transaction b n. by apply addTransaction_held.
  - eapply inside_relocks. by apply deposit_relock.
  - eapply inside_relocks. by apply withdraw_relock.
  - rewrite (transfer_relock w this target a t) by done.
    destruct (PrimFloat.ltb (balance a) amount);
      (eexists _, _; split; [reflexivity|]);
      (split; [by apply inside2_lookup_this | reflexivity]).
  - intros Hlt.
    rewrite (transfer_relock_target (reentrant this a w) this target
               (set_accountMutex Mutex_recursive a) t).
    + eexists _, _. split; [reflexivity|]. cbn.
      split; [apply lookup_insert_eq | reflexivity].
    + exact Hne.
    + unfold reentrant. cbn. apply lookup_insert_eq.
    + unfold reentrant. cbn. by rewrite lookup_insert_ne.
    + reflexivity.
    + exact Hfree'.
    + exact Hamt.
    + exact Hlt.
Qed.

Lemma record_appending_paths_relock_witness :
  (forall transaction b n,
     addTransaction 0 transaction (inside opened 0 ann b n) =
     Relock (AccountMutex 0) (inside opened 0 ann b n)) /\
  relocks (deposit 0 30 "Race test 0-0" opened) 0 /\
  relocks (withdraw 0 30 "Race test 0-0" opened) 0 /\
  relocks (transfer 0 1 30 "Race test 0-0" opened) 0 /\
  (PrimFloat.ltb (balance ann) 30 = false ->
   relocks (transfer 0 1 30 "Race test 0-0" (reentrant 0 ann opened)) 1).
Proof.
  apply (record_appending_paths_relock opened 0 1 ann bob 30 "Race test 0-0");
    try reflexivity.
  discriminate.
Defined.


(** ** A transfer of an account to itself *)

Lemma getAccount_present w n l :
  depth (accountsMutex (bank w)) = 0 ->
  validateAccountNumber n = true ->
  accounts (bank w) !! n = Some l ->
  getAccount n w = Returned (Some l) w.
Proof.
  intros Hd Hv Hn. unfold getAccount. rewrite Hv. cbn [negb].
  bank_free. exec. rewrite Hn, (bank_unlocked _ _ Hm), world_eta.
  reflexivity.
Qed.

(** C5 (the code departs from the claim).  The claim has a transfer of an
    account to itself take the lock of the account once and do nothing.
    [Account::transfer] has no case for [this == &targetAccount]:
    [lock2] and [lock1] are two [std::unique_lock]s on the one mutex,
    [lock2.lock()] takes it and [lock1.lock()] takes it again, whatever
    the amount.  The call does not return, directly or through
    [Bank::processTransfer] with the same number twice. *)
Theorem self_transfer_blocks
    (w : world) (this : loc) (a : Account) (amount : float)
    (description : string) :
  heap w !! this = Some a ->
  accountMutex a = Mutex_new ->
  transfer this this amount description w =
  Relock (AccountMutex this)
    (inside w this a (balance a) (transactionCounter w)) /\
  (forall double_to_string n,
     registry_ok w = true ->
     accounts (bank w) !! n = Some this ->
     processTransfer double_to_string n n amount description w =
     Relock (AccountMutex this)
       (inside w this a (balance a) (transactionCounter w))).
Proof.
  intros Hlive Hfree. split; [by apply self_transfer_relock|].
  intros f n Hok Hn.
  pose proof (registry_ok_mutex _ Hok) as Hd.
  destruct (registry_ok_lookup _ _ _ Hok Hn) as (Hv & _).
  unfold processTransfer, bind.
  rewrite (getAccount_present w n this Hd Hv Hn).
  rewrite (getAccount_present w n this Hd Hv Hn).
  by rewrite (self_transfer_relock w this a).
Qed.

Lemma self_transfer_blocks_witness :
  transfer 0 0 10 "to myself" opened =
  Relock (AccountMutex 0) (inside opened 0 ann 100 2) /\
  (forall double_to_string n,
     registry_ok opened = true ->
     accounts (bank opened) !! n = Some 0 ->
     processTransfer double_to_string n n 10 "to myself" opened =
     Relock (AccountMutex 0) (inside opened 0 ann 100 2)).
Proof.
  apply (self_transfer_blocks opened 0 ann 10 "to myself"); reflexivity.
Defined.

(** ** The registry *)

(** The counterexample to C7 as it is stated: an empty holder name makes
    [Bank::createAccount] leave by an exception, not by a returned
    value. *)
Lemma createAccount_empty_name_is_thrown :
  createAccount "" 100 (world_new example_config example_random) =
  Thrown (BankException INVALID_ACCOUNT_NUMBER
            "Account holder name cannot be empty" "")
         (world_new example_config example_random) /\
  forall accountNumber w',
    createAccount "" 100 (world_new example_config example_random) <>
    Returned accountNumber w'.
Proof. split; [reflexivity|]. intros n w'. discriminate. Qed.

(** C7, amended.  [Bank::createAccount] reports its three errors to its
    caller synchronously, by throwing a [BankException] and leaving the
    state as it was: type INVALID_ACCOUNT_NUMBER for an empty holder
    name, INVALID_AMOUNT for an initial balance outside the bounds,
    SYSTEM_ERROR when the number of accounts has reached [maxAccounts].
    Otherwise it returns the number of the new account.  The other
    errors that are reported are reported by the value false that the
    call returns: [Bank::closeAccount] returns false, and changes
    nothing, for a number that names no account and for an account
    whose balance is not zero; [Bank::processDeposit],
    [Bank::processWithdraw] and [Bank::processTransfer] return false,
    with one failed transaction counted and nothing else changed, for a
    number that names no account, and the first two also for an amount
    that is not positive. *)
Theorem createAccount_reports_by_exception
    (w : world) (holderName : string) (initialBalance : float) :
  registry_ok w = true ->
  (holderName = "" ->
   createAccount holderName initialBalance w =
   Thrown (BankException INVALID_ACCOUNT_NUMBER
             "Account holder name cannot be empty" "") w) /\
  (holderName <> "" -> isValidInitialBalance initialBalance = false ->
   createAccount holderName initialBalance w =
   Thrown (BankException INVALID_AMOUNT "Invalid initial balance" "") w) /\
  (holderName <> "" -> isValidInitialBalance initialBalance = true ->
   (maxAccounts (config (bank w)) <= N.of_nat (size (accounts (bank w))))%N ->
   createAccount holderName initialBalance w =
   Thrown (BankException SYSTEM_ERROR
             "Maximum number of accounts reached" "") w) /\
  (holderName <> "" -> isValidInitialBalance initialBalance = true ->
   (N.of_nat (size (accounts (bank w))) < maxAccounts (config (bank w)))%N ->
   exists accountNumber w',
     createAccount holderName initialBalance w = Returned accountNumber w' /\
     registry_ok w' = true) /\
  (forall accountNumber,
     accounts (bank w) !! accountNumber = None ->
     closeAccount accountNumber w = Returned false w) /\
  (forall accountNumber l a,
     accounts (bank w) !! accountNumber = Some l ->
     heap w !! l = Some a ->
     PrimFloat.eqb (balance a) 0 = false ->
     closeAccount accountNumber w = Returned false w) /\
  (forall double_to_string accountNumber other amount description,
     accounts (bank w) !! accountNumber = None ->
     processDeposit double_to_string accountNumber amount description w =
       Returned false (counted [false] w) /\
     processWithdraw double_to_string accountNumber amount description w =
       Returned false (counted [false] w) /\
     processTransfer double_to_string accountNumber other amount
       description w = Returned false (counted [false] w) /\
     processTransfer double_to_string other accountNumber amount
       description w = Returned false (counted [false] w)) /\
  (forall double_to_string accountNumber l amount description,
     accounts (bank w) !! accountNumber = Some l ->
     PrimFloat.leb amount 0 = true ->
     processDeposit double_to_string accountNumber amount description w =
       Returned false (counted [false] w) /\
     processWithdraw double_to_string accountNumber amount description w =
       Returned false (counted [false] w)).
Proof.
  intros Hok. pose proof (registry_ok_mutex _ Hok) as Hd.
  assert (forall s : string, s <> "" -> String.eqb s "" = false) as Hname.
  { intros s Hs. by apply String.eqb_neq. }
  assert (forall m : string, exists r,
            getAccount m w = Returned r w /\ r = accounts (bank w) !! m)
    as Hget.
  { intros m. destruct (accounts (bank w) !! m) as [l|] eqn:Hm.
    - destruct (registry_ok_lookup _ _ _ Hok Hm) as (Hv & _).
      exists (Some l). by rewrite (getAccount_present w m l Hd Hv Hm).
    - exists None. by rewrite (getAccount_absent w m Hd (or_intror Hm)). }
  split; [|split; [|split; [|split; [|split; [|split; [|split]]]]]].
  - intros ->. by apply createAccount_throws.
  - intros Hs Hb. apply createAccount_throws; [done|].
    unfold createAccount_error. by rewrite (Hname _ Hs), Hb.
  - intros Hs Hb Hfull. apply createAccount_throws; [done|].
    unfold createAccount_error. rewrite (Hname _ Hs), Hb. cbn [negb].
    by apply N.leb_le in Hfull as ->.
  - intros Hs Hb Hroom.
    destruct (createAccount_returns w holderName initialBalance Hok)
      as (n & w' & a' & Hret & Hok' & _).
    + unfold createAccount_error. rewrite (Hname _ Hs), Hb. cbn [negb].
      by apply N.leb_gt in Hroom as ->.
    + by exists n, w'.
  - intros n Hn. apply closeAccount_absent; auto.
  - intros n l a Hn Ha Hbal.
    destruct (registry_ok_lookup _ _ _ Hok Hn) as (Hv & a0 & Ha0 & Hda).
    assert (a0 = a) as -> by congruence.
    by rewrite (closeAccount_present w n l a Hd Hv Hn Ha Hda), Hbal.
  - intros dts n other amount description Hn.
    unfold processDeposit, processWithdraw, processTransfer, bind.
    destruct (Hget other) as (r & Hother & _).
    rewrite (getAccount_absent w n Hd (or_intror Hn)), Hother.
    rewrite (getAccount_absent w n Hd (or_intror Hn)).
    split; [reflexivity|]. split; [reflexivity|]. split; [reflexivity|].
    by destruct r.
  - intros dts n l amount description Hn Hamt.
    destruct (registry_ok_lookup _ _ _ Hok Hn) as (Hv & a & Ha & Hda).
    unfold processDeposit, processWithdraw, bind.
    rewrite (getAccount_present w n l Hd Hv Hn).
    rewrite (deposit_nonpositive w l a Ha _ _ Hda Hamt).
    rewrite (withdraw_nonpositive w l a Ha _ _ Hda Hamt).
    split; reflexivity.
Qed.

Lemma createAccount_reports_by_exception_witness :
  createAccount "" 100 opened =
    Thrown (BankException INVALID_ACCOUNT_NUMBER
              "Account holder name cannot be empty" "") opened /\
  createAccount "Dee" (-5) opened =
    Thrown (BankException INVALID_AMOUNT "Invalid initial balance" "")
      opened /\
  closeAccount "NONEXISTENT" opened = Returned false opened /\
  closeAccount "MTBS-1000-2234" opened = Returned false opened /\
  processWithdraw (fun _ => "") "NONEXISTENT" 10 "Rent" opened =
    Returned false (counted [false] opened) /\
  processDeposit (fun _ => "") "MTBS-1000-2234" (-10) "Refund" opened =
    Returned false (counted [false] opened).
Proof.
  pose proof (createAccount_reports_by_exception opened "" 100 eq_refl)
    as (Hname & _ & _ & _ & Habsent & Hnonzero & Hunknown & Hamount).
  pose proof (createAccount_reports_by_exception opened "Dee" (-5) eq_refl)
    as (_ & Hbalance & _).
  split; [by apply Hname|]. split; [by apply Hbalance|].
  split; [by apply Habsent|].
  split; [by apply (Hnonzero "MTBS-1000-2234" 0 ann)|].
  split.
  - destruct (Hunknown (fun _ => "") "NONEXISTENT" "NONEXISTENT" 10%float
                "Rent")
      as (_ & Hwithdraw & _); [reflexivity|exact Hwithdraw].
  - destruct (Hamount (fun _ => "") "MTBS-1000-2234" 0 (-10)%float "Refund")
      as (Hdeposit & _); [reflexivity|reflexivity|exact Hdeposit].
Defined.

(** C8.  Between two calls of the registry, [Bank::closeAccount] returns
    false and changes nothing when the number names no account or names
    one whose balance differs from zero ([getBalance() != 0.0]); when
    the balance is zero it returns true, the number is erased from the
    mapping, and [Bank::getAccount] then answers [nullptr] for it. *)
Theorem closeAccount_refuses_or_removes (w : world) (n : string) :
  registry_ok w = true ->
  match accounts (bank w) !! n with
  | None => closeAccount n w = Returned false w
  | Some l =>
      exists a,
        heap w !! l = Some a /\
        if PrimFloat.eqb (balance a) 0 then
          closeAccount n w = Returned true (closed n w) /\
          accounts (bank (closed n w)) = delete n (accounts (bank w)) /\
          registry_ok (closed n w) = true /\
          getAccount n (closed n w) = Returned None (closed n w)
        else closeAccount n w = Returned false w
  end.
Proof.
  intros Hok. pose proof (registry_ok_mutex _ Hok) as Hd.
  destruct (accounts (bank w) !! n) as [l|] eqn:Hn.
  - destruct (registry_ok_lookup _ _ _ Hok Hn) as (Hv & a & Ha & Hda).
    exists a. split; [exact Ha|].
    rewrite (closeAccount_present w n l a Hd Hv Hn Ha Hda).
    destruct (PrimFloat.eqb (balance a) 0); [|reflexivity].
    assert (accounts (bank (closed n w)) = delete n (accounts (bank w)))
      as Hacc.
    { unfold closed. by destruct (enableAuditLogging _). }
    assert (heap (closed n w) = heap w /\
            accountsMutex (bank (closed n w)) = accountsMutex (bank w))
      as [Hheap Hmu].
    { unfold closed. by destruct (enableAuditLogging _). }
    split; [reflexivity|]. split; [exact Hacc|]. split.
    + apply registry_ok_iff. rewrite Hmu, Hacc, Hheap. split; [exact Hd|].
      apply registry_ok_iff in Hok as [_ Hall].
      by apply map_Forall_delete.
    + apply getAccount_absent; [by rewrite Hmu|].
      right. rewrite Hacc. apply lookup_delete_eq.
  - apply closeAccount_absent; auto.
Qed.

Lemma closeAccount_refuses_or_removes_witness :
  exists a,
    heap opened !! 2 = Some a /\
    closeAccount "MTBS-5936-7170" opened =
      Returned true (closed "MTBS-5936-7170" opened) /\
    accounts (bank (closed "MTBS-5936-7170" opened)) =
      delete "MTBS-5936-7170" (accounts (bank opened)) /\
    registry_ok (closed "MTBS-5936-7170" opened) = true /\
    getAccount "MTBS-5936-7170" (closed "MTBS-5936-7170" opened) =
      Returned None (closed "MTBS-5936-7170" opened).
Proof.
  pose proof (closeAccount_refuses_or_removes opened "MTBS-5936-7170" eq_refl)
    as H.
  change (accounts (bank opened) !! "MTBS-5936-7170") with (Some 2) in H.
  destruct H as (a & Ha & H). exists a. split; [exact Ha|].
  change (heap opened !! 2) with (Some cid) in Ha. injection Ha as <-.
  exact H.
Defined.

(** The two refusals on the accounts of [opened]. *)
Lemma closeAccount_refusals :
  closeAccount "MTBS-1000-2234" opened = Returned false opened /\
  closeAccount "NONEXISTENT" opened = Returned false opened.
Proof. split; vm_compute; reflexivity. Qed.

(** C10.  For a number that [validateAccountNumber] refuses or that is
    not in the mapping, [Bank::getAccountBalance] returns the [double]
    -1.0: the answer for a missing account has the type of a balance. *)
Theorem getAccountBalance_sentinel (w : world) (n : string) :
  depth (accountsMutex (bank w)) = 0 ->
  validateAccountNumber n = false \/ accounts (bank w) !! n = None ->
  getAccountBalance n w = Returned (-1)%float w.
Proof.
  intros Hd Habs. unfold getAccountBalance, bind.
  rewrite (getAccount_absent w n Hd Habs).
  reflexivity.
Qed.

Lemma getAccountBalance_sentinel_witness :
  getAccountBalance "NONEXISTENT" opened = Returned (-1)%float opened /\
  getAccountBalance "X" opened = Returned (-1)%float opened.
Proof.
  split.
  - apply (getAccountBalance_sentinel opened "NONEXISTENT");
      [reflexivity | right; reflexivity].
  - apply (getAccountBalance_sentinel opened "X");
      [reflexivity | left; reflexivity].
Defined.

(** ** Stopping and restarting the pool *)

Section ThreadPoolResults.

Import ThreadPool.

Lemma restarts_cons e es :
  restarts (e :: es) = false -> e <> Start /\ restarts es = false.
Proof.
  unfold restarts. cbn. intros [He Hes]%orb_false_elim. split; [|exact Hes].
  intros ->. discriminate.
Qed.

Lemma run_outstanding es p p' :
  restarts es = false -> running p = false -> run es p = Some p' ->
  running p' = false /\ outstanding p' <= outstanding p.
Proof.
  revert p. induction es as [|e es IH]; intros p Hno Hr; cbn.
  - intros [= <-]. by split.
  - destruct (step e p) as [p1|] eqn:Hstep; [|discriminate]. intros Hrun.
    apply restarts_cons in Hno as [Hne Hno].
    destruct (step_outstanding e p p1) as [Hr1 Hle1]; [done..|].
    destruct (IH p1 Hno Hr1 Hrun) as [Hr' Hle']. split; [done|lia].
Qed.

(** The counterexample to C4 as it is stated.  One worker waits, one task
    is queued, and [stop] is called: the worker wakes up, finds the queue
    not empty, pops the task and runs it before it leaves, so a task that
    was waiting in the queue when stop was requested is executed. *)
Lemma stop_runs_a_queued_task :
  run [Start; Work 0 0; Submit (Some 7) "job"] (ThreadPool_new 1) =
    Some pool_with_queued_job /\
  running pool_with_queued_job = true /\
  taskQueue pool_with_queued_job = [job 7] /\
  finished pool_with_queued_job = [] /\
  run [StopRequest; Work 0 0; Work 0 0; Work 0 0; StopJoin]
      pool_with_queued_job =
    Some {| workers := []; taskQueue := []; running := false;
            activeThreads := 0; finished := [job 7] |}.
Proof. repeat split; vm_compute; reflexivity. Qed.

(** C4, amended.  When [stop] is requested and no thread calls [start]
    before it returns: every task a worker is executing at the request is
    finished when [stop] returns; a worker that is waiting for a task at
    the request may still pop one queued task and run it, so that what is
    finished when [stop] returns is at most what was finished, plus one
    task for each worker that was executing or waiting; and once [stop]
    has returned no task is executed any more, whatever is called on the
    pool, so the tasks still queued then are abandoned. *)
Theorem stop_lets_each_worker_finish_one_task
    (p p' joined : ThreadPool) (es : list event) :
  run es (stop_request p) = Some p' ->
  restarts es = false ->
  stop_join p' = Some joined ->
  (forall task, Executing task ∈ workers p -> function task <> None ->
                task ∈ finished joined) /\
  length (finished joined) <= outstanding p /\
  (forall es' p'', run es' joined = Some p'' ->
                   finished p'' = finished joined /\ workers p'' = []).
Proof.
  intros Hrun Hno Hjoin.
  destruct (stop_join_Some _ _ Hjoin) as (Hall & Hw & _ & _ & Hf).
  split; [|split].
  - intros task Hin Hfn.
    assert (underway task p') as [Hfin|Hex].
    { eapply run_underway; [exact Hfn | exact Hrun |]. right. exact Hin. }
    + by rewrite Hf.
    + rewrite Forall_forall in Hall. by apply Hall in Hex.
  - destruct (run_outstanding es (stop_request p) p' Hno eq_refl Hrun)
      as [_ Hle].
    rewrite Hf. unfold outstanding in *. cbn in Hle. lia.
  - intros es' p'' Hrun'.
    destruct (run_no_workers es' joined p'' Hw Hrun') as (Hw' & Hf' & _).
    by split.
Qed.

Lemma stop_lets_each_worker_finish_one_task_witness :
  (forall task, Executing task ∈ workers busy_pool ->
                function task <> None ->
                task ∈ [job 1; job 2]) /\
  2 <= outstanding busy_pool /\
  (forall es' p'',
     run es' {| workers := []; taskQueue := [job 3]; running := false;
                activeThreads := 0; finished := [job 1; job 2] |} = Some p'' ->
     finished p'' = [job 1; job 2] /\ workers p'' = []).
Proof.
  apply (stop_lets_each_worker_finish_one_task busy_pool
           {| workers := [Exited; Exited]; taskQueue := [job 3];
              running := false; activeThreads := 0;
              finished := [job 1; job 2] |}
           {| workers := []; taskQueue := [job 3]; running := false;
              activeThreads := 0; finished := [job 1; job 2] |}
           [Work 0 0; Work 1 0; Work 0 0; Work 1 0; Work 1 0]);
    reflexivity.
Defined.



End ThreadPoolResults.

(** * Further results *)

(** ** [Account] *)

Lemma getTransactionHistory_free w this a :
  heap w !! this = Some a -> depth (accountMutex a) = 0 ->
  getTransactionHistory this w = Returned (transactionHistory a) w.
Proof.
  intros Hlive Hd. unfold getTransactionHistory.
  destruct (accountMutex a) as [k dp] eqn:Hm; cbn in Hd; subst dp.
  exec. restored.
Qed.

Lemma isActive_free w this a :
  heap w !! this = Some a -> depth (accountMutex a) = 0 ->
  isActive this w =
  Returned (negb (String.eqb (accountNumber a) "") &&
            negb (String.eqb (accountHolderName a) "")) w.
Proof.
  intros Hlive Hd. unfold isActive.
  destruct (accountMutex a) as [k dp] eqn:Hm; cbn in Hd; subst dp.
  exec. restored.
Qed.

Lemma getStatus_free w this a :
  heap w !! this = Some a -> depth (accountMutex a) = 0 ->
  getStatus this w =
  Returned (if String.eqb (accountNumber a) "" then "INVALID"
            else if String.eqb (accountHolderName a) "" then "UNNAMED"
            else "ACTIVE") w.
Proof.
  intros Hlive Hd. unfold getStatus.
  destruct (accountMutex a) as [k dp] eqn:Hm; cbn in Hd; subst dp.
  exec.
  destruct (String.eqb (accountNumber a) "");
    [|destruct (String.eqb (accountHolderName a) "")]; exec; restored.
Qed.

(** X1.  [Account::Account] throws [std::invalid_argument] for a negative
    initial balance and leaves no object.  Otherwise it makes a new
    object at a free address, with the number, the name and the balance
    it was given and a free mutex, and changes no other account.  A
    positive initial balance adds one DEPOSIT record of that amount whose
    status stays PENDING, so that [isSuccessful] is false of it; a zero
    or NaN balance leaves the history empty. *)
Theorem Account_new_outcome
    (w : world) (number holderName : string) (initialBalance : float) :
  let this := fresh (dom (heap w)) in
  let n := ((transactionCounter w + 1) mod 2 ^ 64)%N in
  let record :=
    Transaction_new ("INIT_" +:+ to_string n) "" number
      TransactionType.DEPOSIT initialBalance "Initial deposit" in
  heap w !! this = None /\
  Account_new number holderName initialBalance w =
  (if PrimFloat.ltb initialBalance 0 then
     Thrown (invalid_argument "Initial balance cannot be negative") w
   else
     Returned this
       (set_heap
          (<[this := {| accountNumber := number;
                        accountHolderName := holderName;
                        balance := initialBalance;
                        transactionHistory :=
                          if PrimFloat.ltb 0 initialBalance then [record]
                          else [];
                        accountMutex := Mutex_new |}]> (heap w))
          (if PrimFloat.ltb 0 initialBalance
           then set_transactionCounter n w else w))) /\
  isSuccessful record = false.
Proof.
  intros this n record. split; [apply fresh_unallocated|].
  split; [|reflexivity].
  unfold Account_new. fold this.
  destruct (PrimFloat.ltb initialBalance 0); [reflexivity|].
  destruct (PrimFloat.ltb 0 initialBalance); exec; reflexivity.
Qed.

(** X2.  On an account whose mutex is free, [getBalance],
    [getTransactionHistory], [isActive] and [getStatus] return what they
    read and leave the state as it was.  [getStatus] answers "ACTIVE"
    exactly when [isActive] answers true, and "INVALID" exactly when the
    number is empty. *)
Theorem getters_leave_the_state
    (w : world) (this : loc) (a : Account) :
  heap w !! this = Some a ->
  depth (accountMutex a) = 0 ->
  getBalance this w = Returned (balance a) w /\
  getTransactionHistory this w = Returned (transactionHistory a) w /\
  exists active st,
    isActive this w = Returned active w /\
    getStatus this w = Returned st w /\
    (active = true <-> st = "ACTIVE") /\
    (st = "INVALID" <-> accountNumber a = "").
Proof.
  intros Hlive Hd.
  split; [by apply getBalance_free|].
  split; [by apply getTransactionHistory_free|].
  eexists _, _. split; [by apply isActive_free|].
  split; [by apply getStatus_free|].
  destruct (String.eqb_spec (accountNumber a) "") as [Hn|Hn];
    [|destruct (String.eqb_spec (accountHolderName a) "")];
    cbn; split; split; congruence.
Qed.

Lemma getters_leave_the_state_witness :
  getBalance 1 opened = Returned 50%float opened /\
  getTransactionHistory 1 opened = Returned (transactionHistory bob) opened /\
  exists active st,
    isActive 1 opened = Returned active opened /\
    getStatus 1 opened = Returned st opened /\
    (active = true <-> st = "ACTIVE") /\
    (st = "INVALID" <-> accountNumber bob = "").
Proof.
  apply (getters_leave_the_state opened 1 bob); reflexivity.
Defined.

(** X3.  [Account::clearTransactionHistory] on an account whose mutex is
    free empties the history and changes nothing else, so that
    [getTransactionHistory] then returns the empty sequence and
    [getBalance] the balance of before. *)
Theorem clearTransactionHistory_empties
    (w : world) (this : loc) (a : Account) :
  heap w !! this = Some a ->
  depth (accountMutex a) = 0 ->
  let w' := set_heap (<[this := set_transactionHistory [] a]> (heap w)) w in
  clearTransactionHistory this w = Returned tt w' /\
  getTransactionHistory this w' = Returned [] w' /\
  getBalance this w' = Returned (balance a) w'.
Proof.
  intros Hlive Hd w'.
  assert (heap w' !! this = Some (set_transactionHistory [] a)) as Hlive'.
  { apply lookup_insert_eq. }
  split; [|split].
  - unfold clearTransactionHistory, w'.
    destruct (accountMutex a) as [k dp] eqn:Hm; cbn in Hd; subst dp.
    exec. reflexivity.
  - by rewrite (getTransactionHistory_free w' this _ Hlive' Hd).
  - by rewrite (getBalance_free w' this _ Hlive' Hd).
Qed.

Lemma clearTransactionHistory_empties_witness :
  let w' := set_heap (<[0 := set_transactionHistory [] ann]> (heap opened))
              opened in
  clearTransactionHistory 0 opened = Returned tt w' /\
  getTransactionHistory 0 w' = Returned [] w' /\
  getBalance 0 w' = Returned 100%float w'.
Proof.
  apply (clearTransactionHistory_empties opened 0 ann); reflexivity.
Defined.

(** X4.  [Account::toString] takes the mutex of the account and, while
    it holds it, calls [getStatus], which takes it again: on an account
    with a free mutex the call does not return a string, whatever the
    account holds. *)
Theorem toString_relocks
    (fixed2 : float -> string) (createdAt_text : string)
    (w : world) (this : loc) (a : Account) :
  heap w !! this = Some a ->
  accountMutex a = Mutex_new ->
  toString fixed2 createdAt_text this w =
  Relock (AccountMutex this)
    (inside w this a (balance a) (transactionCounter w)).
Proof.
  intros Hlive Hfree. unfold toString, getStatus, inside. exec. reflexivity.
Qed.

Lemma toString_relocks_witness :
  toString (fun _ => "100.00") "2026-01-01 00:00:00" 0 opened =
  Relock (AccountMutex 0) (inside opened 0 ann 100 2).
Proof.
  apply (toString_relocks (fun _ => "100.00") "2026-01-01 00:00:00"
           opened 0 ann); reflexivity.
Defined.

(** ** [Bank] *)

Lemma repeating_by_createAccount :
  createAccount "Ann" 100 (world_new example_config constant_random) =
  Returned "MTBS-1000-1000" repeating.
Proof. vm_compute. reflexivity. Qed.

Lemma validateAccountNumber_nonempty n :
  validateAccountNumber n = true -> String.eqb n "" = false.
Proof.
  unfold validateAccountNumber, isValidAccountNumber.
  intros [H _]%andb_prop. by apply negb_true_iff in H.
Qed.

(** What a call of [Bank::createAccount] that passes its three tests
    leaves. *)
Lemma createAccount_result w holderName initialBalance :
  registry_ok w = true ->
  createAccount_error holderName initialBalance w = None ->
  let n := next_account_number w in
  let this := fresh (dom (heap w)) in
  exists w' a',
    createAccount holderName initialBalance w = Returned n w' /\
    registry_ok w' = true /\
    validateAccountNumber n = true /\
    accounts (bank w') = <[n := this]> (accounts (bank w)) /\
    heap w' = <[this := a']> (heap w) /\
    heap w !! this = None /\
    accountNumber a' = n /\ accountHolderName a' = holderName /\
    balance a' = initialBalance /\ accountMutex a' = Mutex_new /\
    transactionHistory a' =
      (if PrimFloat.ltb 0 initialBalance then
         [Transaction_new
            ("INIT_" +:+ to_string ((transactionCounter w + 1) mod 2 ^ 64))
            "" n TransactionType.DEPOSIT initialBalance "Initial deposit"]
       else []) /\
    holderName <> "".
Proof.
  intros Hok Herr n this. pose proof (registry_ok_mutex _ Hok) as Hd.
  apply registry_ok_iff in Hok as [_ Hall].
  unfold createAccount_error in Herr. unfold createAccount.
  destruct (String.eqb_spec holderName "") as [|Hname]; [discriminate|].
  destruct (isValidInitialBalance initialBalance) eqn:Hb; [|discriminate].
  cbn [negb] in *. apply initial_balance_not_negative in Hb.
  unfold getTotalAccounts. bank_free. exec.
  destruct (_ <=? _)%N; [discriminate|].
  rewrite (bank_unlocked _ _ Hm), world_eta.
  destruct (generateAccountNumber_valid w) as (n' & Hgen & Hn).
  assert (n' = n) as ->.
  { unfold n, next_account_number. by rewrite Hgen. }
  rewrite Hgen. clear Hgen. unfold Account_new. exec.
  pose proof (fresh_unallocated (heap w)) as Hfresh.
  fold this in Hfresh |- *.
  assert (forall (m : string) (l : loc),
             accounts (bank w) !! m = Some l -> l <> this) as Hold.
  { intros m l Hl Heq. destruct (Hall m l Hl) as (_ & a & Ha & _).
    rewrite Heq in Ha. congruence. }
  destruct (PrimFloat.ltb 0 initialBalance) eqn:Hpos; exec;
    destruct (enableAuditLogging (config (bank w))); exec;
    eexists _, _; (split; [reflexivity|]);
    (split; [|cbn; repeat split; done]);
    apply registry_ok_iff; cbn; (split; [reflexivity|]);
    (apply map_Forall_insert_2;
     [ split; [exact Hn|]; rewrite lookup_insert_eq; eexists; split; reflexivity
     | intros m l Hl; destruct (Hall m l Hl) as (Hv & a & Ha & Hda);
       split; [exact Hv|]; exists a;
       rewrite lookup_insert_ne by (apply not_eq_sym; eauto); by split ]).
Qed.

(** X5.  The account [Bank::createAccount] returns the number of can be
    looked up at once: [getAccountBalance] returns the initial balance,
    [getAccountStatus] "ACTIVE", and [getAccountTransactions] the one
    initial DEPOSIT record, or nothing for a balance that is not
    positive. *)
Theorem createAccount_then_lookup
    (w : world) (holderName : string) (initialBalance : float) :
  registry_ok w = true ->
  createAccount_error holderName initialBalance w = None ->
  exists n w',
    createAccount holderName initialBalance w = Returned n w' /\
    getAccount n w' = Returned (Some (fresh (dom (heap w)))) w' /\
    getAccountBalance n w' = Returned initialBalance w' /\
    getAccountStatus n w' = Returned "ACTIVE" w' /\
    getAccountTransactions n w' =
    Returned
      (if PrimFloat.ltb 0 initialBalance then
         [Transaction_new
            ("INIT_" +:+ to_string ((transactionCounter w + 1) mod 2 ^ 64))
            "" n TransactionType.DEPOSIT initialBalance "Initial deposit"]
       else []) w'.
Proof.
  intros Hok Herr.
  destruct (createAccount_result w holderName initialBalance Hok Herr)
    as (w' & a' & Hret & Hok' & Hv & Hacc & Hheap & _ & Hnum & Hname & Hbal
        & Hmu & Hhist & Hne).
  exists (next_account_number w), w'. split; [exact Hret|].
  pose proof (registry_ok_mutex _ Hok') as Hd'.
  assert (accounts (bank w') !! next_account_number w =
          Some (fresh (dom (heap w)))) as Hn.
  { rewrite Hacc. apply lookup_insert_eq. }
  assert (heap w' !! fresh (dom (heap w)) = Some a') as Ha.
  { rewrite Hheap. apply lookup_insert_eq. }
  assert (depth (accountMutex a') = 0) as Hda by (by rewrite Hmu).
  pose proof (getAccount_present w' _ _ Hd' Hv Hn) as Hget.
  split; [exact Hget|].
  unfold getAccountBalance, getAccountStatus, getAccountTransactions, bind.
  rewrite Hget.
  rewrite (getBalance_free w' _ a' Ha Hda), Hbal.
  rewrite (getStatus_free w' _ a' Ha Hda), Hnum, Hname.
  rewrite (getTransactionHistory_free w' _ a' Ha Hda), Hhist.
  rewrite (validateAccountNumber_nonempty _ Hv).
  apply String.eqb_neq in Hne as ->. done.
Qed.

Lemma createAccount_then_lookup_witness :
  exists n w',
    createAccount "Dee" 25 opened = Returned n w' /\
    getAccount n w' = Returned (Some (fresh (dom (heap opened)))) w' /\
    getAccountBalance n w' = Returned 25%float w' /\
    getAccountStatus n w' = Returned "ACTIVE" w' /\
    getAccountTransactions n w' =
    Returned
      (if PrimFloat.ltb 0 25 then
         [Transaction_new
            ("INIT_" +:+ to_string ((transactionCounter opened + 1) mod 2 ^ 64))
            "" n TransactionType.DEPOSIT 25 "Initial deposit"]
       else []) w'.
Proof.
  apply (createAccount_then_lookup opened "Dee" 25); reflexivity.
Defined.

(** X6.  [Bank::createAccount] does not look whether the number it
    generated is in use.  When it is, the new account takes the number
    over: the count of accounts does not grow, the number now designates
    the new account, and the account it designated before is out of the
    mapping unless another number leads to it. *)
Theorem createAccount_overwrites_a_used_number
    (w : world) (holderName : string) (initialBalance : float) (old : loc) :
  registry_ok w = true ->
  createAccount_error holderName initialBalance w = None ->
  accounts (bank w) !! next_account_number w = Some old ->
  exists w',
    createAccount holderName initialBalance w =
      Returned (next_account_number w) w' /\
    size (accounts (bank w')) = size (accounts (bank w)) /\
    accounts (bank w') !! next_account_number w =
      Some (fresh (dom (heap w))) /\
    fresh (dom (heap w)) <> old /\
    (forall m, accounts (bank w') !! m = Some old ->
               m <> next_account_number w /\
               accounts (bank w) !! m = Some old).
Proof.
  intros Hok Herr Hused.
  destruct (createAccount_result w holderName initialBalance Hok Herr)
    as (w' & a' & Hret & _ & _ & Hacc & _ & Hfree & _).
  destruct (registry_ok_lookup _ _ _ Hok Hused) as (_ & a & Ha & _).
  assert (fresh (dom (heap w)) <> old) as Hne by congruence.
  exists w'. split; [exact Hret|]. rewrite Hacc. split; [|split; [|split]].
  - rewrite <- (insert_delete_id (accounts (bank w)) _ _ Hused) at 2.
    rewrite <- insert_delete_eq.
    rewrite !map_size_insert_None by apply lookup_delete_eq. reflexivity.
  - apply lookup_insert_eq.
  - exact Hne.
  - intros m Hm. rewrite lookup_insert in Hm. case_decide as Hmn.
    + congruence.
    + by split.
Qed.

Lemma createAccount_overwrites_a_used_number_witness :
  exists w',
    createAccount "Bob" 50 repeating = Returned "MTBS-1000-1000" w' /\
    size (accounts (bank w')) = size (accounts (bank repeating)) /\
    accounts (bank w') !! "MTBS-1000-1000" = Some 1 /\
    1 <> 0 /\
    (forall m, accounts (bank w') !! m = Some 0 ->
               m <> "MTBS-1000-1000" /\
               accounts (bank repeating) !! m = Some 0).
Proof.
  apply (createAccount_overwrites_a_used_number repeating "Bob" 50 0);
    reflexivity.
Defined.

Lemma counted_frame successes w :
  heap (counted successes w) = heap w /\
  accounts (bank (counted successes w)) = accounts (bank w) /\
  accountsMutex (bank (counted successes w)) = accountsMutex (bank w) /\
  logged (counted successes w) = logged w /\
  transactionCounter (counted successes w) = transactionCounter w.
Proof.
  revert w. induction successes as [|s rest IH]; intros w; [done|].
  cbn. destruct (IH (set_bank
    {| config := config (bank w); accounts := accounts (bank w);
       accountsMutex := accountsMutex (bank w);
       totalTransactions := (totalTransactions (bank w) + 1) mod 2 ^ 64;
       successfulTransactions :=
         if s then (successfulTransactions (bank w) + 1) mod 2 ^ 64
         else successfulTransactions (bank w);
       failedTransactions :=
         if s then failedTransactions (bank w)
         else (failedTransactions (bank w) + 1) mod 2 ^ 64 |} w))
    as (H1 & H2 & H3 & H4 & H5).
  by rewrite H1, H2, H3, H4, H5.
Qed.

Lemma add_one_mod (x k : N) :
  (((x + 1) mod 2 ^ 64 + k) mod 2 ^ 64 = (x + (1 + k)) mod 2 ^ 64)%N.
Proof. rewrite N.Div0.add_mod_idemp_l. f_equal. lia. Qed.

(** X7.  [Bank::updateStatistics] counts every call in
    [totalTransactions] and in exactly one of [successfulTransactions]
    and [failedTransactions], each modulo 2^64, and touches nothing
    else: after any sequence of calls the three counters have grown by
    the number of calls, of successes and of failures. *)
Theorem updateStatistics_counts (successes : list bool) (w : world) :
  let b := bank w in
  let b' := bank (counted successes w) in
  let grown (n : N) (k : nat) := ((n + N.of_nat k) mod 2 ^ 64)%N in
  (totalTransactions b < 2 ^ 64)%N ->
  (successfulTransactions b < 2 ^ 64)%N ->
  (failedTransactions b < 2 ^ 64)%N ->
  totalTransactions b' = grown (totalTransactions b) (length successes) /\
  successfulTransactions b' =
    grown (successfulTransactions b)
          (length (filter (fun s => s = true) successes)) /\
  failedTransactions b' =
    grown (failedTransactions b)
          (length (filter (fun s => s = false) successes)) /\
  accounts b' = accounts b /\ heap (counted successes w) = heap w.
Proof.
  cbn zeta. revert w. induction successes as [|s rest IH]; intros w Ht Hs Hf.
  { cbn. rewrite !N.add_0_r, !N.mod_small by done. done. }
  cbn [counted updateStatistics].
  set (w1 := set_bank _ w).
  assert (forall x : N, ((x + 1) mod 2 ^ 64 < 2 ^ 64)%N) as Hlt.
  { intros x. by apply N.mod_lt. }
  destruct (IH w1) as (IHt & IHs & IHf & IHa & IHh).
  - apply Hlt.
  - unfold w1. cbn. destruct s; [apply Hlt|exact Hs].
  - unfold w1. cbn. destruct s; [exact Hf|apply Hlt].
  - rewrite IHt, IHs, IHf, IHa, IHh. unfold w1.
    cbn [bank set_bank heap totalTransactions successfulTransactions
         failedTransactions accounts length].
    clear. destruct s.
    + rewrite (filter_cons_True (fun s => s = true)) by done.
      rewrite (filter_cons_False (fun s => s = false)) by done.
      cbn [length]. rewrite !add_one_mod.
      repeat split; f_equal; lia.
    + rewrite (filter_cons_False (fun s => s = true)) by done.
      rewrite (filter_cons_True (fun s => s = false)) by done.
      cbn [length]. rewrite !add_one_mod.
      repeat split; f_equal; lia.
Qed.

Lemma updateStatistics_counts_witness :
  let b' := bank (counted [true; false; false] opened) in
  totalTransactions b' = ((0 + N.of_nat 3) mod 2 ^ 64)%N /\
  successfulTransactions b' = ((0 + N.of_nat 1) mod 2 ^ 64)%N /\
  failedTransactions b' = ((0 + N.of_nat 2) mod 2 ^ 64)%N /\
  accounts b' = accounts (bank opened) /\
  heap (counted [true; false; false] opened) = heap opened.
Proof.
  apply (updateStatistics_counts [true; false; false] opened); reflexivity.
Defined.

Lemma updateStatistics_false w :
  updateStatistics false w = Returned tt (counted [false] w).
Proof. reflexivity. Qed.

(** X8.  [Bank::processDeposit] and [Bank::processWithdraw] return false
    and count one failed transaction, with no account and no log
    changed, when the number is not registered and when the amount is
    not positive.  For any other amount on a registered account they do
    not return, and the statistics are not updated: the call has
    stopped inside [Account::deposit] or [Account::withdraw]. *)
Theorem processDeposit_processWithdraw_outcomes
    (double_to_string : float -> string) (w : world) (n : string)
    (amount : float) (description : string) :
  registry_ok w = true ->
  match accounts (bank w) !! n with
  | None =>
      processDeposit double_to_string n amount description w =
        Returned false (counted [false] w) /\
      processWithdraw double_to_string n amount description w =
        Returned false (counted [false] w)
  | Some l =>
      exists a,
        heap w !! l = Some a /\
        if PrimFloat.leb amount 0 then
          processDeposit double_to_string n amount description w =
            Returned false (counted [false] w) /\
          processWithdraw double_to_string n amount description w =
            Returned false (counted [false] w)
        else
          accountMutex a = Mutex_new ->
          processDeposit double_to_string n amount description w =
            Relock (AccountMutex l)
              (inside w l a (balance a + amount)
                 ((transactionCounter w + 1) mod 2 ^ 64)) /\
          processWithdraw double_to_string n amount description w =
            Relock (AccountMutex l)
              (inside w l a
                 (if PrimFloat.ltb (balance a) amount then balance a
                  else (balance a - amount)%float)
                 ((transactionCounter w + 1) mod 2 ^ 64))
  end.
Proof.
  intros Hok. pose proof (registry_ok_mutex _ Hok) as Hd.
  unfold processDeposit, processWithdraw, bind.
  destruct (accounts (bank w) !! n) as [l|] eqn:Hn.
  - destruct (registry_ok_lookup _ _ _ Hok Hn) as (Hv & a & Ha & Hda).
    exists a. split; [exact Ha|].
    rewrite (getAccount_present w n l Hd Hv Hn).
    destruct (PrimFloat.leb amount 0) eqn:Hamt.
    + rewrite (deposit_nonpositive w l a Ha _ _ Hda Hamt).
      rewrite (withdraw_nonpositive w l a Ha _ _ Hda Hamt).
      by rewrite updateStatistics_false.
    + intros Hfree.
      rewrite (deposit_relock w l a Ha Hfree _ _ Hamt).
      by rewrite (withdraw_relock w l a Ha Hfree _ _ Hamt).
  - rewrite (getAccount_absent w n Hd (or_intror Hn)).
    by rewrite updateStatistics_false.
Qed.

Lemma processDeposit_processWithdraw_outcomes_witness :
  processDeposit (fun _ => "") "NONEXISTENT" 10 "x" opened =
    Returned false (counted [false] opened) /\
  processWithdraw (fun _ => "") "NONEXISTENT" 10 "x" opened =
    Returned false (counted [false] opened).
Proof.
  apply (processDeposit_processWithdraw_outcomes (fun _ => "") opened
           "NONEXISTENT" 10 "x").
  reflexivity.
Defined.

(** X9.  [Bank::processTransfer] looks up both numbers before it does
    anything else; when either is not registered it returns false and
    counts one failed transaction, and no account is touched, whatever
    the amount. *)
Theorem processTransfer_unknown_account
    (double_to_string : float -> string) (w : world)
    (fromAccount toAccount : string) (amount : float)
    (description : string) :
  registry_ok w = true ->
  accounts (bank w) !! fromAccount = None \/
  accounts (bank w) !! toAccount = None ->
  processTransfer double_to_string fromAccount toAccount amount
    description w =
  Returned false (counted [false] w).
Proof.
  intros Hok Hmiss. pose proof (registry_ok_mutex _ Hok) as Hd.
  assert (forall m, exists r, getAccount m w = Returned r w /\
                              r = accounts (bank w) !! m) as Hget.
  { intros m. destruct (accounts (bank w) !! m) as [l|] eqn:Hm.
    - destruct (registry_ok_lookup _ _ _ Hok Hm) as (Hv & _).
      exists (Some l). by rewrite (getAccount_present w m l Hd Hv Hm).
    - exists None. by rewrite (getAccount_absent w m Hd (or_intror Hm)). }
  unfold processTransfer, bind.
  destruct (Hget fromAccount) as (rf & -> & ->).
  destruct (Hget toAccount) as (rt & -> & ->).
  destruct Hmiss as [-> | ->]; [reflexivity|].
  by destruct (accounts (bank w) !! fromAccount).
Qed.

Lemma processTransfer_unknown_account_witness :
  processTransfer (fun _ => "") "MTBS-1000-2234" "NONEXISTENT" 10 "x" opened =
  Returned false (counted [false] opened).
Proof.
  apply (processTransfer_unknown_account (fun _ => "") opened
           "MTBS-1000-2234" "NONEXISTENT" 10 "x");
    [reflexivity | right; reflexivity].
Defined.

(** X10.  [Bank::closeAccount] erases the number and leaves the object:
    after it has returned true, a thread that holds the handle still
    reads the balance with [getBalance], while [getAccountBalance] of
    the number answers -1.0. *)
Theorem closed_account_is_detached
    (w : world) (n : string) (l : loc) (a : Account) :
  registry_ok w = true ->
  accounts (bank w) !! n = Some l ->
  heap w !! l = Some a ->
  PrimFloat.eqb (balance a) 0 = true ->
  closeAccount n w = Returned true (closed n w) /\
  heap (closed n w) = heap w /\
  getBalance l (closed n w) = Returned (balance a) (closed n w) /\
  getAccountBalance n (closed n w) = Returned (-1)%float (closed n w).
Proof.
  intros Hok Hn Ha Hz. pose proof (registry_ok_mutex _ Hok) as Hd.
  destruct (registry_ok_lookup _ _ _ Hok Hn) as (Hv & a0 & Ha0 & Hda).
  assert (a0 = a) as -> by congruence.
  assert (heap (closed n w) = heap w /\
          accountsMutex (bank (closed n w)) = accountsMutex (bank w) /\
          accounts (bank (closed n w)) = delete n (accounts (bank w)))
    as (Hheap & Hmu & Hacc).
  { unfold closed. by destruct (enableAuditLogging _). }
  split; [|split; [exact Hheap|split]].
  - by rewrite (closeAccount_present w n l a Hd Hv Hn Ha Hda), Hz.
  - apply getBalance_free; [by rewrite Hheap|exact Hda].
  - unfold getAccountBalance, bind. rewrite getAccount_absent; [done| |].
    + by rewrite Hmu.
    + right. rewrite Hacc. apply lookup_delete_eq.
Qed.

Lemma closed_account_is_detached_witness :
  closeAccount "MTBS-5936-7170" opened =
    Returned true (closed "MTBS-5936-7170" opened) /\
  heap (closed "MTBS-5936-7170" opened) = heap opened /\
  getBalance 2 (closed "MTBS-5936-7170" opened) =
    Returned 0%float (closed "MTBS-5936-7170" opened) /\
  getAccountBalance "MTBS-5936-7170" (closed "MTBS-5936-7170" opened) =
    Returned (-1)%float (closed "MTBS-5936-7170" opened).
Proof.
  apply (closed_account_is_detached opened "MTBS-5936-7170" 2 cid);
    reflexivity.
Defined.

(** X11.  [Bank::validateTransaction] only reads: between two calls of
    the registry it leaves the state as it was, and it returns true
    exactly when the number passes [validateAccountNumber], the amount
    is not refused by [amount <= 0], the number is registered, the
    account is active and, for the types WITHDRAW and TRANSFER, the
    balance is not below the amount.  An amount that is NaN is refused
    by neither comparison. *)
Theorem validateTransaction_decides
    (w : world) (n : string) (amount : float) (type : string) :
  registry_ok w = true ->
  validateTransaction n amount type w =
  Returned
    (validateAccountNumber n && negb (PrimFloat.leb amount 0) &&
     match accounts (bank w) !! n with
     | None => false
     | Some l =>
         match heap w !! l with
         | None => false
         | Some a =>
             negb (String.eqb (accountNumber a) "") &&
             negb (String.eqb (accountHolderName a) "") &&
             (if String.eqb type "WITHDRAW" || String.eqb type "TRANSFER"
              then negb (PrimFloat.ltb (balance a) amount) else true)
         end
     end) w.
Proof.
  intros Hok. pose proof (registry_ok_mutex _ Hok) as Hd.
  unfold validateTransaction.
  destruct (validateAccountNumber n) eqn:Hv; [|reflexivity].
  destruct (PrimFloat.leb amount 0); [reflexivity|]. cbn [negb andb].
  unfold bind.
  destruct (accounts (bank w) !! n) as [l|] eqn:Hn.
  - destruct (registry_ok_lookup _ _ _ Hok Hn) as (_ & a & Ha & Hda).
    rewrite (getAccount_present w n l Hd Hv Hn), Ha.
    rewrite (isActive_free w l a Ha Hda).
    destruct (negb (String.eqb (accountNumber a) "") &&
              negb (String.eqb (accountHolderName a) "")); [|reflexivity].
    cbn [negb andb].
    destruct (String.eqb type "WITHDRAW" || String.eqb type "TRANSFER");
      [|reflexivity].
    rewrite (getBalance_free w l a Ha Hda).
    by destruct (PrimFloat.ltb (balance a) amount).
  - by rewrite (getAccount_absent w n Hd (or_intror Hn)).
Qed.

Lemma validateTransaction_decides_witness :
  validateTransaction "MTBS-3468-4702" nan "WITHDRAW" opened =
    Returned true opened /\
  validateTransaction "MTBS-3468-4702" 51 "WITHDRAW" opened =
    Returned false opened /\
  validateTransaction "MTBS-3468-4702" 51 "DEPOSIT" opened =
    Returned true opened.
Proof.
  split; [|split].
  - apply (validateTransaction_decides opened "MTBS-3468-4702" nan "WITHDRAW").
    reflexivity.
  - apply (validateTransaction_decides opened "MTBS-3468-4702" 51 "WITHDRAW").
    reflexivity.
  - apply (validateTransaction_decides opened "MTBS-3468-4702" 51 "DEPOSIT").
    reflexivity.
Defined.

(** ** [BankUtils] *)

(** X12.  [BankUtils::formatAccountNumber] returns a number of at most
    eight characters as it is.  Of a longer one it keeps the first eight
    characters only, with a dash after the fourth: the result has nine
    characters, and two numbers that agree on their first eight
    characters are formatted alike. *)
Theorem formatAccountNumber_keeps_eight_characters (number : string) :
  (String.length number <= 8 ->
   BankUtils.formatAccountNumber number = number) /\
  (8 < String.length number ->
   String.length (BankUtils.formatAccountNumber number) = 9 /\
   forall other,
     8 < String.length other ->
     String.substring 0 8 other = String.substring 0 8 number ->
     BankUtils.formatAccountNumber other =
     BankUtils.formatAccountNumber number).
Proof.
  unfold BankUtils.formatAccountNumber. split.
  - intros Hle. by apply Nat.leb_le in Hle as ->.
  - intros Hlt.
    assert (forall s, 8 < String.length s ->
              exists c1 c2 c3 c4 c5 c6 c7 c8 rest,
                s = (String c1 (String c2 (String c3 (String c4 (String c5
                      (String c6 (String c7 (String c8 rest))))))))) as Hshape.
    { intros s Hs.
      do 8 (destruct s as [|? s]; [cbn in Hs; lia|]).
      by eexists _, _, _, _, _, _, _, _, _. }
    destruct (Hshape number Hlt)
      as (c1 & c2 & c3 & c4 & c5 & c6 & c7 & c8 & rest & ->).
    assert ((String.length
              (String c1 (String c2 (String c3 (String c4 (String c5
                 (String c6 (String c7 (String c8 rest)))))))) <=? 8) = false)
      as Hlong by (by apply Nat.leb_gt).
    assert (forall s, String.substring 0 0 s = "") as Hnone.
    { by intros []. }
    rewrite Hlong. cbn [String.substring]. rewrite Hnone.
    split; [reflexivity|].
    intros other Hother Hsame.
    destruct (Hshape other Hother)
      as (d1 & d2 & d3 & d4 & d5 & d6 & d7 & d8 & rest' & ->).
    assert ((String.length
              (String d1 (String d2 (String d3 (String d4 (String d5
                 (String d6 (String d7 (String d8 rest')))))))) <=? 8) = false)
      as -> by (by apply Nat.leb_gt).
    cbn [String.substring] in *. rewrite !Hnone in *.
    injection Hsame as -> -> -> -> -> -> -> ->.
    reflexivity.
Qed.

Lemma formatAccountNumber_keeps_eight_characters_witness :
  BankUtils.formatAccountNumber "ABCD" = "ABCD" /\
  String.length (BankUtils.formatAccountNumber "MTBS-1000-1000") = 9.
Proof.
  split.
  - apply (proj1 (formatAccountNumber_keeps_eight_characters "ABCD")).
    cbn. lia.
  - apply (proj2 (formatAccountNumber_keeps_eight_characters
                    "MTBS-1000-1000")).
    cbn. lia.
Defined.

Lemma SFcompare_antisym (x y : spec_float) (c : comparison) :
  SFcompare x y = Some c -> SFcompare y x = Some (CompOpp c).
Proof.
  destruct x as [sx|sx| |sx mx ex], y as [sy|sy| |sy my ey]; cbn;
    try discriminate; try (destruct sx); try (destruct sy);
    intros [= <-]; try reflexivity.
  - rewrite (Z.compare_antisym ex ey).
    destruct (ex ?= ey)%Z; cbn; try reflexivity.
    by rewrite (Pos.compare_cont_antisym mx my Eq).
  - rewrite (Z.compare_antisym ex ey).
    destruct (ex ?= ey)%Z; cbn; try reflexivity.
    by rewrite (Pos.compare_cont_antisym mx my Eq).
Qed.

Lemma SFcompare_None (x y : spec_float) :
  SFcompare x y = None -> x = S754_nan \/ y = S754_nan.
Proof.
  destruct x as [sx|sx| |sx mx ex], y as [sy|sy| |sy my ey]; cbn;
    try discriminate; auto.
Qed.

Lemma not_nan_spec (x : float) : is_nan x = false -> Prim2SF x <> S754_nan.
Proof.
  unfold is_nan. intros Hx%negb_false_iff Hnan.
  rewrite FloatAxioms.eqb_spec, Hnan in Hx. discriminate.
Qed.

(** [std::min(a, b)] with [b] a number is not above [b], unless it is
    NaN. *)
Lemma std_min_bound (a b : float) :
  is_nan b = false ->
  PrimFloat.leb (BankUtils.std_min a b) b = true \/
  is_nan (BankUtils.std_min a b) = true.
Proof.
  intros Hb. pose proof (not_nan_spec b Hb) as Hbs.
  unfold BankUtils.std_min.
  destruct (PrimFloat.ltb b a) eqn:Hlt.
  - left. rewrite FloatAxioms.leb_spec. unfold SFleb.
    destruct (SFcompare (Prim2SF b) (Prim2SF b)) as [c|] eqn:Hc.
    + pose proof (SFcompare_antisym _ _ _ Hc) as Hc'.
      rewrite Hc in Hc'. by destruct c.
    + by destruct (SFcompare_None _ _ Hc).
  - destruct (is_nan a) eqn:Ha; [by right|left].
    pose proof (not_nan_spec a Ha) as Has.
    rewrite FloatAxioms.ltb_spec in Hlt. rewrite FloatAxioms.leb_spec.
    unfold SFleb, SFltb in *.
    destruct (SFcompare (Prim2SF b) (Prim2SF a)) as [c|] eqn:Hc.
    + apply SFcompare_antisym in Hc. rewrite Hc. by destruct c.
    + by destruct (SFcompare_None _ _ Hc).
Qed.

(** X13.  [BankUtils::calculateTransactionFee] never charges more than
    10.0: the fee of a TRANSFER is capped by [std::min], the fee of a
    WITHDRAW is 2.0, and every other type is free.  The fee is NaN only
    for a TRANSFER of an amount whose hundredth is NaN. *)
Theorem calculateTransactionFee_is_capped (amount : float) (type : string) :
  let fee := BankUtils.calculateTransactionFee amount type in
  (PrimFloat.leb fee 10 = true \/
   (type = TransactionType.TRANSFER /\
    is_nan (amount * 0x1.47ae147ae147bp-7)%float = true /\
    is_nan fee = true)) /\
  (type = TransactionType.WITHDRAW -> fee = 2%float) /\
  (type <> TransactionType.TRANSFER -> type <> TransactionType.WITHDRAW ->
   fee = 0%float).
Proof.
  cbn zeta. unfold BankUtils.calculateTransactionFee.
  split; [|split].
  - destruct (String.eqb_spec type TransactionType.TRANSFER) as [Ht|Ht].
    + destruct (std_min_bound (amount * 0x1.47ae147ae147bp-7)%float 10 eq_refl)
        as [Hle|Hnan]; [by left|right].
      split; [exact Ht|]. split; [|exact Hnan].
      unfold BankUtils.std_min in Hnan.
      by destruct (PrimFloat.ltb 10 _).
    + left. by destruct (String.eqb type TransactionType.WITHDRAW).
  - by intros ->.
  - intros Ht Hw. apply String.eqb_neq in Ht as ->.
    by apply String.eqb_neq in Hw as ->.
Qed.

Lemma generated_number_length (w : world) :
  14 <= String.length (next_account_number w).
Proof.
  unfold next_account_number. cbn. rewrite !string_length_app.
  pose proof (setw_length 4 "0"%char
    (pretty (1000 + random_device w (draws w) `mod` 9000)%Z)).
  pose proof (setw_length 4 "0"%char
    (pretty (1000 + random_device w (S (draws w)) `mod` 9000)%Z)).
  cbn [String.length]. lia.
Qed.

(** X14.  The two validators of account numbers disagree on every
    number the bank issues: a number made by
    [BankUtils::generateAccountNumber] of bank_utils.cpp has at least
    fourteen characters,
    so [TransactionUtils::isValidAccountNumber], the one the bank calls,
    accepts it, and [BankUtils::isValidAccountNumber] of bank_utils.h,
    which wants eight to twelve characters, refuses it. *)
Theorem generated_numbers_split_the_validators (w : world) :
  generateAccountNumber w =
    Returned (next_account_number w) (set_draws (S (S (draws w))) w) /\
  isValidAccountNumber (next_account_number w) = true /\
  BankUtils.isValidAccountNumber (next_account_number w) = false.
Proof.
  pose proof (generated_number_length w) as Hlen.
  split; [reflexivity|]. split.
  - unfold isValidAccountNumber. apply andb_true_intro. split.
    + apply negb_true_iff, String.eqb_neq. intros Heq.
      rewrite Heq in Hlen. cbn in Hlen. lia.
    + apply Nat.leb_le. lia.
  - unfold BankUtils.isValidAccountNumber.
    destruct (_ || _); [reflexivity|].
    apply andb_false_intro2. apply Nat.leb_gt. lia.
Qed.

(** ** [ThreadPool] *)

Section ThreadPoolFurther.

Import ThreadPool.

Lemma run_app es1 es2 p :
  run (es1 ++ es2) p =
  match run es1 p with Some p1 => run es2 p1 | None => None end.
Proof.
  revert p. induction es1 as [|e es1 IH]; intros p; cbn; [reflexivity|].
  destruct (step e p); [apply IH|reflexivity].
Qed.

Lemma step_all_exited e p p' :
  Forall (fun wk => wk = Exited) (workers p) ->
  step e p = Some p' ->
  Forall (fun wk => wk = Exited) (workers p') /\ finished p' = finished p.
Proof.
  intros Hall. destruct e as [|task d| | |i k]; cbn.
  - intros [= <-]. unfold start. by destruct (negb (running p)).
  - intros [= <-]. unfold submitTask. by destruct (negb (running p)).
  - by intros [= <-].
  - intros (_ & -> & _ & _ & ->)%stop_join_Some. by split.
  - destruct (workers p !! i) as [wk|] eqn:Hi; [|discriminate].
    rewrite Forall_forall in Hall.
    rewrite (Hall wk) by (by eapply list_elem_of_lookup_2). discriminate.
Qed.

Lemma run_all_exited es p p' :
  Forall (fun wk => wk = Exited) (workers p) ->
  run es p = Some p' ->
  Forall (fun wk => wk = Exited) (workers p') /\ finished p' = finished p.
Proof.
  revert p. induction es as [|e es IH]; intros p Hall; cbn.
  - by intros [= <-].
  - destruct (step e p) as [p1|] eqn:Hstep; [|discriminate]. intros Hrun.
    destruct (step_all_exited _ _ _ Hall Hstep) as [Hall1 Hf1].
    destruct (IH _ Hall1 Hrun) as [Hall' Hf']. split; [done|congruence].
Qed.

Lemma first_moves_from k m :
  run ((fun i => Work i 0) <$> seq k m)
      {| workers := replicate k Exited ++ replicate m LoopTest;
         taskQueue := []; running := false; activeThreads := 0;
         finished := [] |} =
  Some {| workers := replicate (k + m) Exited; taskQueue := [];
          running := false; activeThreads := 0; finished := [] |}.
Proof.
  revert k. induction m as [|m IH]; intros k.
  { cbn. by rewrite app_nil_r, Nat.add_0_r. }
  cbn [seq fmap list_fmap run step workers].
  assert ((replicate k Exited ++ replicate (S m) LoopTest) !! k =
          Some LoopTest) as ->.
  { rewrite lookup_app_r by (by rewrite length_replicate).
    by rewrite length_replicate, Nat.sub_diag. }
  cbn [workerFunction running workers taskQueue activeThreads finished].
  assert (<[k := Exited]> (replicate k Exited ++ replicate (S m) LoopTest) =
          replicate (S k) Exited ++ replicate m LoopTest) as ->.
  { rewrite insert_app_r_alt by (by rewrite length_replicate).
    rewrite length_replicate, Nat.sub_diag. cbn.
    clear. induction k as [|k IHk]; [done|]. cbn. by rewrite IHk. }
  rewrite (IH (S k)). by replace (k + S m) with (S k + m) by lia.
Qed.

(** X15.  The constructor starts the worker threads while [running] is
    false.  A worker that makes its first test of [while (running)]
    before [start] is called leaves [workerFunction] at once; when all
    of them have, the pool has lost its workers for good: whatever is
    called afterwards, [start] and [submitTask] included, no task is
    ever executed. *)
Theorem workers_that_start_early_exit
    (threadCount : nat) (es : list event) (p : ThreadPool) :
  run (first_moves threadCount ++ es) (ThreadPool_new threadCount) = Some p ->
  run (first_moves threadCount) (ThreadPool_new threadCount) =
    Some {| workers := replicate threadCount Exited; taskQueue := [];
            running := false; activeThreads := 0; finished := [] |} /\
  Forall (fun wk => wk = Exited) (workers p) /\
  finished p = [].
Proof.
  intros Hrun.
  pose proof (first_moves_from 0 threadCount) as Hfirst.
  cbn [replicate app Nat.add] in Hfirst.
  unfold first_moves, ThreadPool_new in *.
  split; [exact Hfirst|].
  rewrite run_app, Hfirst in Hrun.
  apply run_all_exited in Hrun; [exact Hrun|].
  cbn. apply Forall_forall. by intros wk [-> _]%elem_of_replicate.
Qed.

Lemma workers_that_start_early_exit_witness :
  run (first_moves 2) (ThreadPool_new 2) =
    Some {| workers := replicate 2 Exited; taskQueue := [];
            running := false; activeThreads := 0; finished := [] |} /\
  Forall (fun wk => wk = Exited)
    (workers {| workers := [Exited; Exited]; taskQueue := [job 1];
                running := true; activeThreads := 0; finished := [] |}) /\
  finished {| workers := [Exited; Exited]; taskQueue := [job 1];
              running := true; activeThreads := 0; finished := [] |} = [].
Proof.
  apply (workers_that_start_early_exit 2 [Start; Submit (Some 1) "job"]).
  reflexivity.
Defined.

Lemma holds_task_le (l : list worker) :
  sum_list (holds_task <$> l) <= length l.
Proof.
  induction l as [|wk l IH]; cbn; [lia|]. destruct wk; cbn; lia.
Qed.

Lemma decrement_mod (s : nat) :
  (N.of_nat (S s) < 2 ^ 64)%N ->
  ((N.of_nat (S s) + (2 ^ 64 - 1)) mod 2 ^ 64 = N.of_nat s)%N.
Proof.
  intros Hlt.
  replace (N.of_nat (S s) + (2 ^ 64 - 1))%N
    with (N.of_nat s + 1 * 2 ^ 64)%N by lia.
  rewrite N.Div0.mod_add. apply N.mod_small. lia.
Qed.

Lemma step_activeThreads (n : nat) e p p' :
  (N.of_nat n < 2 ^ 64)%N ->
  length (workers p) <= n ->
  activeThreads p = N.of_nat (sum_list (holds_task <$> workers p)) ->
  step e p = Some p' ->
  length (workers p') <= n /\
  activeThreads p' = N.of_nat (sum_list (holds_task <$> workers p')).
Proof.
  intros Hn Hlen Hact. destruct e as [|task d| | |i k]; cbn.
  - intros [= <-]. unfold start. by destruct (negb (running p)).
  - intros [= <-]. unfold submitTask. by destruct (negb (running p)).
  - by intros [= <-].
  - intros Hjoin.
    destruct (stop_join_Some _ _ Hjoin) as (Hall & Hw & _).
    unfold stop_join in Hjoin. destruct (forallb _ _); [|discriminate].
    injection Hjoin as <-. cbn. split; [lia|]. rewrite Hact. f_equal.
    clear -Hall. induction Hall as [|wk l -> _ IH]; [done|]. exact IH.
  - destruct (workers p !! i) as [wk|] eqn:Hi; [|discriminate].
    destruct (workerFunction k wk p) as [[wk' p1]|] eqn:Hwf; [|discriminate].
    intros [= <-]. cbn.
    pose proof (sum_list_insert holds_task (workers p) i wk wk' Hi) as Hsum.
    pose proof (holds_task_le (<[i := wk']> (workers p))) as Hle.
    rewrite length_insert in Hle.
    destruct wk as [| |task|]; cbn in Hwf.
    + injection Hwf as <- <-. rewrite length_insert. split; [done|].
      rewrite Hact. f_equal. destruct (running p); cbn in Hsum; lia.
    + destruct (taskQueue p) as [|t0 q] eqn:Hq.
      * destruct (running p); [discriminate|]. injection Hwf as <- <-.
        rewrite length_insert. split; [done|]. rewrite Hact. f_equal.
        cbn in Hsum. lia.
      * destruct (_ !! k) as [task|]; [|discriminate].
        destruct (is_top _ task); [|discriminate].
        injection Hwf as <- <-. cbn. rewrite length_insert. split; [done|].
        rewrite Hact. cbn in Hsum. rewrite N.mod_small by lia. lia.
    + injection Hwf as <- <-. cbn. rewrite length_insert. split; [done|].
      rewrite Hact. cbn in Hsum.
      replace (sum_list (holds_task <$> workers p))
        with (S (sum_list (holds_task <$> <[i := LoopTest]> (workers p))))
        by lia.
      apply decrement_mod.
      pose proof (holds_task_le (workers p)). lia.
    + discriminate.
Qed.

(** X16.  [getActiveThreadCount] is exact: in every state a pool of
    fewer than 2^64 workers reaches from its construction,
    [activeThreads] is the number of workers that have popped a task and
    not yet come back to the test of the loop, and the vector of workers
    is never longer than at construction. *)
Theorem activeThreads_counts_the_busy_workers
    (threadCount : nat) (es : list event) (p : ThreadPool) :
  (N.of_nat threadCount < 2 ^ 64)%N ->
  run es (ThreadPool_new threadCount) = Some p ->
  getActiveThreadCount p = N.of_nat (sum_list (holds_task <$> workers p)) /\
  length (workers p) <= threadCount.
Proof.
  intros Hn.
  assert (forall es q,
            length (workers q) <= threadCount ->
            activeThreads q = N.of_nat (sum_list (holds_task <$> workers q)) ->
            run es q = Some p ->
            length (workers p) <= threadCount /\
            activeThreads p = N.of_nat (sum_list (holds_task <$> workers p)))
    as Hgen.
  { clear es. induction es as [|e es IH]; intros q Hlen Hact; cbn.
    - by intros [= <-].
    - destruct (step e q) as [q1|] eqn:Hstep; [|discriminate].
      destruct (step_activeThreads threadCount e q q1 Hn Hlen Hact Hstep).
      by apply IH. }
  intros Hrun.
  assert (sum_list (holds_task <$> replicate threadCount LoopTest) = 0)
    as Hzero.
  { clear. induction threadCount as [|m IH]; [done|]. exact IH. }
  destruct (Hgen es (ThreadPool_new threadCount)) as [Hlen Hact].
  - cbn. by rewrite length_replicate.
  - cbn. by rewrite Hzero.
  - exact Hrun.
  - by split.
Qed.

Lemma activeThreads_counts_the_busy_workers_witness :
  getActiveThreadCount
    {| workers := [Executing (job 7)]; taskQueue := []; running := true;
       activeThreads := 1; finished := [] |} =
  N.of_nat (sum_list (holds_task <$> [Executing (job 7)])) /\
  length [Executing (job 7)] <= 1.
Proof.
  apply (activeThreads_counts_the_busy_workers 1
           [Start; Work 0 0; Submit (Some 7) "job"; Work 0 0]);
    reflexivity.
Defined.

Lemma step_priorities e p p' :
  Forall (fun task => priority task = 0%Z) (taskQueue p) ->
  Forall (fun wk => Forall (fun task => priority task = 0%Z) (held wk))
         (workers p) ->
  Forall (fun task => priority task = 0%Z) (finished p) ->
  step e p = Some p' ->
  Forall (fun task => priority task = 0%Z) (taskQueue p') /\
  Forall (fun wk => Forall (fun task => priority task = 0%Z) (held wk))
         (workers p') /\
  Forall (fun task => priority task = 0%Z) (finished p').
Proof.
  intros Hq Hw Hf. destruct e as [|task d| | |i k]; cbn.
  - intros [= <-]. unfold start. by destruct (negb (running p)).
  - intros [= <-]. unfold submitTask. destruct (negb (running p)); [done|].
    cbn. split; [|done]. apply Forall_app. split; [done|].
    by apply Forall_singleton.
  - by intros [= <-].
  - intros (_ & -> & -> & _ & ->)%stop_join_Some. by repeat split.
  - destruct (workers p !! i) as [wk|] eqn:Hi; [|discriminate].
    destruct (workerFunction k wk p) as [[wk' p1]|] eqn:Hwf; [|discriminate].
    intros [= <-]. cbn.
    assert (Forall (fun task => priority task = 0%Z) (held wk)) as Hwk.
    { rewrite Forall_forall in Hw. apply Hw.
      by eapply list_elem_of_lookup_2. }
    destruct wk as [| |task|]; cbn in Hwf.
    + injection Hwf as <- <-. split; [done|]. split; [|done].
      apply Forall_insert; [done|]. by destruct (running p).
    + destruct (taskQueue p) as [|t0 q] eqn:Hq0.
      * destruct (running p); [discriminate|]. injection Hwf as <- <-.
        rewrite Hq0. split; [done|]. split; [|done].
        by apply Forall_insert.
      * destruct (_ !! k) as [task|] eqn:Hk; [|discriminate].
        destruct (is_top _ task); [|discriminate].
        injection Hwf as <- <-. cbn. split; [by apply Forall_delete|].
        split; [|done]. apply Forall_insert; [done|].
        apply Forall_singleton. rewrite Forall_forall in Hq. apply Hq.
        by eapply list_elem_of_lookup_2.
    + injection Hwf as <- <-. cbn. split; [done|]. split.
      * by apply Forall_insert.
      * cbn in Hwk. destruct (function task); [|done].
        apply Forall_app. split; [done|exact Hwk].
    + discriminate.
Qed.

(** X17.  [submitTask] makes every task with the priority 0, so the
    priorities order nothing.  In every state the pool reaches from its
    construction, each task that is queued, held by a worker or finished
    has the priority 0, and [Task::operator<], by which the priority
    queue compares its tasks, holds of no two queued tasks. *)
Theorem no_queued_task_outranks_another
    (threadCount : nat) (es : list event) (p : ThreadPool) :
  run es (ThreadPool_new threadCount) = Some p ->
  Forall (fun task => priority task = 0%Z) (taskQueue p) /\
  (forall i task,
     workers p !! i = Some (Executing task) -> priority task = 0%Z) /\
  Forall (fun task => priority task = 0%Z) (finished p) /\
  (forall a b, a ∈ taskQueue p -> b ∈ taskQueue p -> Task_lt a b = false).
Proof.
  intros Hrun.
  assert (forall es q,
            Forall (fun task => priority task = 0%Z) (taskQueue q) ->
            Forall (fun wk =>
                      Forall (fun task => priority task = 0%Z) (held wk))
                   (workers q) ->
            Forall (fun task => priority task = 0%Z) (finished q) ->
            run es q = Some p ->
            Forall (fun task => priority task = 0%Z) (taskQueue p) /\
            Forall (fun wk =>
                      Forall (fun task => priority task = 0%Z) (held wk))
                   (workers p) /\
            Forall (fun task => priority task = 0%Z) (finished p)) as Hgen.
  { clear. induction es as [|e es IH]; intros q Hq Hw Hf; cbn.
    - by intros [= <-].
    - destruct (step e q) as [q1|] eqn:Hstep; [|discriminate].
      destruct (step_priorities _ _ _ Hq Hw Hf Hstep) as (Hq1 & Hw1 & Hf1).
      by apply IH. }
  destruct (Hgen es (ThreadPool_new threadCount)) as (Hq & Hw & Hf).
  - by cbn.
  - cbn. apply Forall_forall. by intros wk [-> _]%elem_of_replicate.
  - by cbn.
  - exact Hrun.
  - split; [exact Hq|]. split; [|split; [exact Hf|]].
    + intros i task Hi. rewrite Forall_forall in Hw.
      specialize (Hw _ (list_elem_of_lookup_2 _ _ _ Hi)). cbn in Hw.
      by rewrite Forall_singleton in Hw.
    + intros a b Ha Hb. rewrite Forall_forall in Hq. unfold Task_lt.
      by rewrite (Hq a Ha), (Hq b Hb).
Qed.

Lemma no_queued_task_outranks_another_witness :
  let p := {| workers := [Executing (job 7)]; taskQueue := [job 8; job 9];
              running := true; activeThreads := 1;
              finished := [] |} in
  Forall (fun task => priority task = 0%Z) (taskQueue p) /\
  (forall i task,
     workers p !! i = Some (Executing task) -> priority task = 0%Z) /\
  Forall (fun task => priority task = 0%Z) (finished p) /\
  (forall a b, a ∈ taskQueue p -> b ∈ taskQueue p -> Task_lt a b = false).
Proof.
  apply (no_queued_task_outranks_another 1
           [Start; Work 0 0; Submit (Some 7) "job"; Work 0 0;
            Submit (Some 8) "job"; Submit (Some 9) "job"]).
  reflexivity.
Defined.

Lemma callable_app (l1 l2 : list Task) :
  callable (l1 ++ l2) = callable l1 ++ callable l2.
Proof. apply filter_app. Qed.

Lemma held_insert (ws : list worker) (i : nat) (wk wk' : worker) :
  ws !! i = Some wk ->
  mjoin (held <$> <[i := wk']> ws) ++ held wk ≡ₚ
  mjoin (held <$> ws) ++ held wk'.
Proof.
  revert i. induction ws as [|w0 ws IH]; intros [|i]; try discriminate.
  - intros [= ->]. cbn.
    rewrite <- !app_assoc. rewrite (Permutation_app_comm (mjoin _) (held wk)).
    by rewrite (Permutation_app_comm (mjoin _) (held wk')), !app_assoc,
         (Permutation_app_comm (held wk') (held wk)).
  - intros Hi. cbn. rewrite <- !app_assoc. f_equiv. by apply IH.
Qed.

Lemma held_exited (ws : list worker) :
  Forall (fun wk => wk = Exited) ws -> mjoin (held <$> ws) = [].
Proof. induction 1 as [|wk ws -> _ IH]; [done|]. exact IH. Qed.

Lemma step_stored e p p' :
  step e p = Some p' ->
  stored p' ≡ₚ stored p ++ callable (accepted_by e p).
Proof.
  unfold stored, callable. destruct e as [|task d| | |i k]; cbn.
  - intros [= <-]. rewrite app_nil_r. unfold start.
    by destruct (negb (running p)).
  - intros [= <-]. unfold submitTask.
    destruct (negb (running p)); cbn; [by rewrite app_nil_r|].
    rewrite <- !app_assoc, !filter_app, <- !app_assoc. f_equiv.
    rewrite (Permutation_app_comm (filter _ [_])).
    by rewrite <- !app_assoc.
  - intros [= <-]. by rewrite app_nil_r.
  - intros Hjoin.
    destruct (stop_join_Some _ _ Hjoin) as (Hall & -> & -> & _ & ->).
    rewrite (held_exited _ Hall). cbn. by rewrite !app_nil_r.
  - destruct (workers p !! i) as [wk|] eqn:Hi; [|discriminate].
    destruct (workerFunction k wk p) as [[wk' p1]|] eqn:Hwf; [|discriminate].
    intros [= <-]. cbn. rewrite app_nil_r.
    pose proof (held_insert (workers p) i wk wk' Hi) as Hheld.
    destruct wk as [| |task|]; cbn in Hwf.
    + injection Hwf as <- <-.
      assert (held (if running p then Waiting else Exited) = []) as Hnone
        by (by destruct (running p)).
      rewrite Hnone in Hheld. cbn in Hheld. rewrite !app_nil_r in Hheld.
      by rewrite Hheld.
    + destruct (taskQueue p) as [|t0 q] eqn:Hq.
      * destruct (running p); [discriminate|]. injection Hwf as <- <-.
        rewrite Hq. cbn in Hheld. rewrite !app_nil_r in Hheld.
        by rewrite Hheld.
      * destruct (_ !! k) as [task|] eqn:Hk; [|discriminate].
        destruct (is_top _ task); [|discriminate].
        injection Hwf as <- <-. cbn [workers taskQueue finished].
        cbn in Hheld. rewrite app_nil_r in Hheld.
        pose proof (delete_Permutation (t0 :: q) k task Hk) as Hdel.
        assert (delete k (t0 :: q) ++
                mjoin (held <$> <[i := Executing task]> (workers p)) ≡ₚ
                (t0 :: q) ++ mjoin (held <$> workers p)) as ->; [|done].
        rewrite Hheld.
        etrans; [|apply Permutation_app_tail; symmetry; exact Hdel].
        rewrite app_assoc. symmetry. apply Permutation_cons_append.
    + injection Hwf as <- <-. cbn [workers taskQueue finished].
      cbn in Hheld. rewrite app_nil_r in Hheld.
      rewrite <- Hheld.
      rewrite (app_assoc (taskQueue p)).
      rewrite (filter_app _ (taskQueue p ++ _) [task]), <- app_assoc.
      apply Permutation_app_head.
      destruct (function task) as [f|] eqn:Hf.
      * rewrite filter_cons_True by (by rewrite Hf). cbn.
        symmetry. apply Permutation_cons_append.
      * rewrite filter_cons_False by (rewrite Hf; by intros [? [=]]). done.
    + discriminate.
Qed.

(** X18.  The pool neither loses a task nor calls one twice.  Along any
    run, the tasks with a function that are queued, held by a worker or
    finished are, up to their order, those there were at first together
    with those [submitTask] has accepted.  From a pool that holds none,
    every accepted task with a function is therefore queued, held or
    finished, and when the accepted tasks differ from one another no
    task is finished twice. *)
Theorem tasks_are_accounted_for
    (es : list event) (p p' : ThreadPool) :
  run es p = Some p' ->
  stored p' ≡ₚ stored p ++ callable (accepted es p) /\
  (stored p = [] ->
   (forall task, task ∈ accepted es p -> is_Some (function task) ->
                 task ∈ stored p') /\
   (NoDup (accepted es p) -> NoDup (stored p') /\ NoDup (finished p'))).
Proof.
  intros Hrun.
  assert (stored p' ≡ₚ stored p ++ callable (accepted es p)) as Hperm.
  { revert p Hrun. induction es as [|e es IH]; intros p; cbn [run accepted].
    - intros [= <-]. by rewrite app_nil_r.
    - destruct (step e p) as [p1|] eqn:Hstep; [|discriminate]. intros Hrun.
      rewrite (IH _ Hrun), (step_stored _ _ _ Hstep), callable_app.
      by rewrite <- app_assoc. }
  split; [exact Hperm|]. intros Hnone. rewrite Hnone in Hperm. cbn in Hperm.
  split.
  - intros task Hin Hfun. rewrite Hperm. unfold callable.
    by apply list_elem_of_filter.
  - intros Hdup.
    assert (NoDup (stored p')) as Hstored.
    { rewrite Hperm. unfold callable. by apply NoDup_filter. }
    split; [exact Hstored|].
    unfold stored in Hstored. by apply NoDup_app in Hstored as (_ & _ & ?).
Qed.

Lemma tasks_are_accounted_for_witness :
  let es := [Start; Work 0 0; Submit (Some 7) "job"; Work 0 0;
             Submit (Some 8) "job"; Work 0 0] in
  let p' := {| workers := [LoopTest]; taskQueue := [job 8];
               running := true; activeThreads := 0;
               finished := [job 7] |} in
  stored p' ≡ₚ
    stored (ThreadPool_new 1) ++ callable (accepted es (ThreadPool_new 1)) /\
  (stored (ThreadPool_new 1) = [] ->
   (forall task, task ∈ accepted es (ThreadPool_new 1) ->
                 is_Some (function task) -> task ∈ stored p') /\
   (NoDup (accepted es (ThreadPool_new 1)) ->
    NoDup (stored p') /\ NoDup (finished p'))).
Proof.
  apply (tasks_are_accounted_for
           [Start; Work 0 0; Submit (Some 7) "job"; Work 0 0;
            Submit (Some 8) "job"; Work 0 0]
           (ThreadPool_new 1)).
  reflexivity.
Defined.

End ThreadPoolFurther.

(** ** [WorkQueue] *)

Section WorkQueueFacts.

Import WorkQueue.

(** X19.  [WorkQueue] is first in, first out, and loses nothing: after
    any calls of [enqueue] and [dequeue] that all returned, the items
    the queue held at first followed by the items enqueued are the items
    dequeued followed by the items still in the queue; [maxSize] never
    changes. *)
Theorem WorkQueue_first_in_first_out
    (calls : list call) (q q' : WorkQueue) (items : list WorkItem) :
  run calls q = Some (items, q') ->
  queue q ++ enqueued calls = items ++ queue q' /\
  maxSize q' = maxSize q.
Proof.
  revert q items. induction calls as [|[item|] calls IH]; intros q items.
  - intros [= <- <-]. unfold enqueued. cbn. by rewrite app_nil_r.
  - cbn [run]. unfold enqueue.
    destruct (N.of_nat (length (queue q)) <? maxSize q)%N; [|discriminate].
    intros [Heq Hmax]%IH. cbn in Heq, Hmax. split; [|exact Hmax].
    rewrite <- Heq, <- app_assoc. reflexivity.
  - cbn [run]. unfold dequeue.
    destruct (queue q) as [|front rest] eqn:Hq; [discriminate|].
    destruct (run calls _) as [[items1 q1]|] eqn:Hrun; [|discriminate].
    intros [= <- <-]. apply IH in Hrun as [Heq Hmax]. cbn in Heq, Hmax.
    split; [|exact Hmax]. cbn. f_equal. exact Heq.
Qed.

Lemma WorkQueue_first_in_first_out_witness :
  queue (WorkQueue_new 2) ++
    enqueued [Enqueue {| work := Some 1; description := "a" |};
              Enqueue {| work := Some 2; description := "b" |};
              Dequeue;
              Enqueue {| work := Some 3; description := "c" |}] =
  [{| work := Some 1; description := "a" |}] ++
    queue {| queue := [{| work := Some 2; description := "b" |};
                       {| work := Some 3; description := "c" |}];
             maxSize := 2 |} /\
  maxSize {| queue := [{| work := Some 2; description := "b" |};
                       {| work := Some 3; description := "c" |}];
             maxSize := 2 |} = maxSize (WorkQueue_new 2).
Proof.
  apply (WorkQueue_first_in_first_out
           [Enqueue {| work := Some 1; description := "a" |};
            Enqueue {| work := Some 2; description := "b" |};
            Dequeue;
            Enqueue {| work := Some 3; description := "c" |}]
           (WorkQueue_new 2)).
  reflexivity.
Defined.

(** X20.  The two waits keep the queue within its bound: a queue that
    holds at most [maxSize] items holds at most [maxSize] items after
    any calls that returned, [enqueue] returns exactly when the queue is
    not full and [dequeue] exactly when it is not empty; a call returns
    nothing but [true]. *)
Theorem WorkQueue_stays_within_maxSize
    (calls : list call) (q q' : WorkQueue) (items : list WorkItem) :
  (size q <= maxSize q)%N ->
  run calls q = Some (items, q') ->
  (size q' <= maxSize q')%N /\
  (forall item, (exists q1, enqueue item q' = Some (true, q1)) <->
                (size q' < maxSize q')%N) /\
  ((exists item q1, dequeue q' = Some (item, true, q1)) <-> empty q' = false).
Proof.
  intros Hle Hrun.
  assert (size q' <= maxSize q')%N as Hle'.
  { revert q items Hle Hrun.
    induction calls as [|[item|] calls IH]; intros q items Hle.
    - by intros [= _ <-].
    - cbn [run]. unfold enqueue.
      destruct (N.of_nat (length (queue q)) <? maxSize q)%N eqn:Hlt;
        [|discriminate].
      apply IH. unfold size. cbn. rewrite length_app. cbn.
      apply N.ltb_lt in Hlt. lia.
    - cbn [run]. unfold dequeue.
      destruct (queue q) as [|front rest] eqn:Hq; [discriminate|].
      destruct (run calls _) as [[items1 q1]|] eqn:Hrun; [|discriminate].
      intros [= _ <-]. eapply IH; [|exact Hrun].
      unfold size in *. rewrite Hq in Hle. cbn in *. lia. }
  split; [exact Hle'|]. split.
  - intros item. unfold enqueue, size.
    destruct (N.of_nat (length (queue q')) <? maxSize q')%N eqn:Hlt.
    + apply N.ltb_lt in Hlt. split; [done|]. intros _. by eexists.
    + apply N.ltb_ge in Hlt. split; [by intros [q1 [=]]|lia].
  - unfold dequeue, empty. destruct (queue q') as [|front rest].
    + split; [by intros (item & q1 & [=])|done].
    + split; [done|]. intros _. by do 2 eexists.
Qed.

Lemma WorkQueue_stays_within_maxSize_witness :
  let full := {| queue := [{| work := Some 1; description := "a" |}];
                 maxSize := 1 |} in
  (size full <= maxSize full)%N /\
  (forall item, (exists q1, enqueue item full = Some (true, q1)) <->
                (size full < maxSize full)%N) /\
  ((exists item q1, dequeue full = Some (item, true, q1)) <->
   empty full = false).
Proof.
  apply (WorkQueue_stays_within_maxSize
           [Enqueue {| work := Some 1; description := "a" |}]
           (WorkQueue_new 1) _ []).
  - vm_compute. discriminate.
  - reflexivity.
Defined.

End WorkQueueFacts.

(** ** [TransactionQueue] *)

Section TransactionQueueFacts.

Import TransactionQueue.

Lemma locked_free {A} (scope : TransactionQueue -> result A) q :
  queueMutex q = Mutex_new ->
  locked scope q =
  match scope (set_queueMutex {| kind := std_mutex; depth := 1 |} q) with
  | Done a q' => Done a (set_queueMutex (Mutex_unlock (queueMutex q')) q')
  | Blocked q' => Blocked q'
  end.
Proof. intros Hfree. unfold locked. by rewrite Hfree. Qed.

Lemma locked_held {A} (scope : TransactionQueue -> result A) q d :
  queueMutex q = {| kind := std_mutex; depth := S d |} ->
  locked scope q = Blocked q.
Proof. intros Hheld. unfold locked. by rewrite Hheld. Qed.

(** X21.  [enqueueTransaction], [dequeueTransaction] and
    [getQueueStatus] never return: each takes [queueMutex], a
    [std::mutex], and then calls [isFull] or [isEmpty], which lock the
    same mutex again.  On any queue whose mutex is free the call stops
    there, holding the mutex, with the tasks unchanged. *)
Theorem TransactionQueue_calls_lock_twice
    (q : TransactionQueue) (t : TransactionTask) :
  queueMutex q = Mutex_new ->
  let held := set_queueMutex {| kind := std_mutex; depth := 1 |} q in
  enqueueTransaction t q = Blocked held /\
  dequeueTransaction q = Blocked held /\
  getQueueStatus q = Blocked held /\
  taskQueue held = taskQueue q.
Proof.
  intros Hfree held.
  assert (isFull held = Blocked held) as Hfull
    by (by apply (locked_held _ held 0)).
  assert (isEmpty held = Blocked held) as Hempty
    by (by apply (locked_held _ held 0)).
  unfold enqueueTransaction, dequeueTransaction, getQueueStatus.
  rewrite !locked_free by exact Hfree. fold held.
  cbv zeta. by rewrite Hfull, Hempty.
Qed.

Lemma TransactionQueue_calls_lock_twice_witness :
  let held := set_queueMutex {| kind := std_mutex; depth := 1 |}
                             (TransactionQueue_new 10) in
  enqueueTransaction {| task := Some 1; description := "deposit" |}
                     (TransactionQueue_new 10) = Blocked held /\
  dequeueTransaction (TransactionQueue_new 10) = Blocked held /\
  getQueueStatus (TransactionQueue_new 10) = Blocked held /\
  taskQueue held = taskQueue (TransactionQueue_new 10).
Proof.
  apply (TransactionQueue_calls_lock_twice (TransactionQueue_new 10)).
  reflexivity.
Defined.

Lemma perform_empty_free c q :
  queueMutex q = Mutex_new -> taskQueue q = [] ->
  match c with
  | EnqueueTransaction _ | DequeueTransaction | GetQueueStatus =>
      perform c q =
      (set_queueMutex {| kind := std_mutex; depth := 1 |} q, false)
  | _ => exists q', perform c q = (q', true) /\
                    queueMutex q' = Mutex_new /\ taskQueue q' = []
  end.
Proof.
  intros Hfree Hnil.
  assert (isFull (set_queueMutex {| kind := std_mutex; depth := 1 |} q) =
          Blocked (set_queueMutex {| kind := std_mutex; depth := 1 |} q))
    as Hfull by (by apply (locked_held _ _ 0)).
  assert (isEmpty (set_queueMutex {| kind := std_mutex; depth := 1 |} q) =
          Blocked (set_queueMutex {| kind := std_mutex; depth := 1 |} q))
    as Hempty by (by apply (locked_held _ _ 0)).
  destruct c; unfold perform.
  - unfold enqueueTransaction. rewrite locked_free by exact Hfree.
    by rewrite Hfull.
  - unfold dequeueTransaction. rewrite locked_free by exact Hfree.
    by rewrite Hempty.
  - unfold getQueueSize. rewrite locked_free by exact Hfree.
    eexists. split; [reflexivity|]. by cbn.
  - unfold isEmpty. rewrite locked_free by exact Hfree.
    eexists. split; [reflexivity|]. by cbn.
  - unfold isFull. rewrite locked_free by exact Hfree.
    eexists. split; [reflexivity|]. by cbn.
  - unfold clearQueue. rewrite locked_free by exact Hfree.
    eexists. split; [reflexivity|]. cbn. by rewrite Hnil.
  - unfold getQueueStatus. rewrite locked_free by exact Hfree.
    cbv zeta. by rewrite Hempty.
Qed.

(** X22.  A [TransactionQueue] never holds a task.  Whatever one thread
    calls on a new queue, the queue is empty at the end, and the calls
    all return exactly when none of them is [enqueueTransaction],
    [dequeueTransaction] or [getQueueStatus]: the first of these is
    where the thread stays. *)
Theorem TransactionQueue_stays_empty (calls : list call) (maxQueueSize : N) :
  taskQueue (perform_all calls (TransactionQueue_new maxQueueSize)).1 = [] /\
  (perform_all calls (TransactionQueue_new maxQueueSize)).2 =
  forallb (fun c => match c with
                    | EnqueueTransaction _ | DequeueTransaction
                    | GetQueueStatus => false
                    | _ => true
                    end) calls.
Proof.
  assert (forall q, queueMutex q = Mutex_new -> taskQueue q = [] ->
            taskQueue (perform_all calls q).1 = [] /\
            (perform_all calls q).2 =
            forallb (fun c => match c with
                              | EnqueueTransaction _ | DequeueTransaction
                              | GetQueueStatus => false
                              | _ => true
                              end) calls) as Hgen.
  { induction calls as [|c calls IH]; intros q Hfree Hnil; [by split|].
    cbn [perform_all forallb].
    pose proof (perform_empty_free c q Hfree Hnil) as Hc.
    destruct c;
      try (rewrite Hc; cbn; by split);
      destruct Hc as (q1 & -> & Hfree1 & Hnil1); by apply IH. }
  by apply Hgen.
Qed.

End TransactionQueueFacts.

(** ** [TransactionProcessor] *)

Lemma float_ltb_leb (x y : float) :
  PrimFloat.ltb x y = true -> PrimFloat.leb y x = false.
Proof.
  rewrite FloatAxioms.ltb_spec, FloatAxioms.leb_spec. unfold SFltb, SFleb.
  destruct (SFcompare (Prim2SF x) (Prim2SF y)) as [c|] eqn:Hc; [|done].
  apply SFcompare_antisym in Hc. rewrite Hc. by destruct c.
Qed.

Lemma float_leb_ltb (x y : float) :
  PrimFloat.leb x y = true -> PrimFloat.ltb y x = false.
Proof.
  rewrite FloatAxioms.ltb_spec, FloatAxioms.leb_spec. unfold SFltb, SFleb.
  destruct (SFcompare (Prim2SF x) (Prim2SF y)) as [c|] eqn:Hc; [|done].
  apply SFcompare_antisym in Hc. rewrite Hc. by destruct c.
Qed.

Section TransactionProcessorFacts.

Import TransactionProcessor.

Variables (w : world) (this : loc) (a : Account).
Hypothesis this_live : heap w !! this = Some a.
Hypothesis this_free : accountMutex a = Mutex_new.

Lemma this_unlocked : depth (accountMutex a) = 0.
Proof using this_free. by rewrite this_free. Qed.

Lemma validateTransaction_outcome amount type :
  validateTransaction this amount type w =
  Returned
    (negb (String.eqb (accountNumber a) "") &&
     negb (String.eqb (accountHolderName a) "") &&
     isValidAmount amount &&
     (if String.eqb type "WITHDRAW" || String.eqb type "TRANSFER"
      then PrimFloat.leb amount (balance a) else true)) w.
Proof using this_live this_free.
  unfold validateTransaction, isAccountActive, hasSufficientFunds.
  unfold bind at 1. rewrite (isActive_free w this a this_live this_unlocked).
  destruct (negb (String.eqb (accountNumber a) "") &&
            negb (String.eqb (accountHolderName a) "")); [|reflexivity].
  destruct (isValidAmount amount); [|reflexivity].
  destruct (String.eqb type "WITHDRAW" || String.eqb type "TRANSFER");
    [|reflexivity].
  cbn [negb andb]. unfold bind.
  rewrite (getBalance_free w this a this_live this_unlocked). unfold ret.
  by destruct (PrimFloat.leb amount (balance a)).
Qed.

Lemma isValidAmount_positive amount :
  isValidAmount amount = true -> PrimFloat.leb amount 0 = false.
Proof.
  unfold isValidAmount. intros [Hpos _]%andb_prop. by apply float_ltb_leb.
Qed.

(** X23.  [TransactionProcessor] never reports a deposit or a withdrawal
    as done.  For an account whose mutex is free, [processDeposit] and
    [processWithdraw] return the result of a failed validation, with the
    account untouched and the balance it has, or they pass the
    validation and do not return: the call of [deposit] or [withdraw]
    stops where it appends its record, with the new balance written.
    The results [Deposit successful], [Deposit failed],
    [Withdrawal successful] and [Insufficient funds for withdrawal] are
    never produced; [processBalanceCheck] always succeeds. *)
Theorem TransactionProcessor_outcomes
    (amount : float) (description : string) (counter : N) :
  let active := negb (String.eqb (accountNumber a) "") &&
                negb (String.eqb (accountHolderName a) "") in
  let id := ((counter + 1) mod 2 ^ 64)%N in
  let n := ((transactionCounter w + 1) mod 2 ^ 64)%N in
  processDeposit this amount description counter w =
    (if active && isValidAmount amount
     then Relock (AccountMutex this)
            (inside w this a (balance a + amount)%float n)
     else Returned ({| success := false;
                       message := "Invalid deposit transaction";
                       transactionId := id; newBalance := balance a |}, id)
            w) /\
  processWithdraw this amount description counter w =
    (if active && isValidAmount amount && PrimFloat.leb amount (balance a)
     then Relock (AccountMutex this)
            (inside w this a (balance a - amount)%float n)
     else Returned ({| success := false;
                       message := "Invalid withdrawal transaction";
                       transactionId := id; newBalance := balance a |}, id)
            w) /\
  processBalanceCheck this counter w =
    Returned ({| success := true; message := "Balance check successful";
                 transactionId := id; newBalance := balance a |}, id) w.
Proof using this_live this_free.
  intros active id n. subst active id n.
  pose proof this_unlocked as Hd.
  split; [|split].
  - unfold processDeposit. unfold bind at 1.
    rewrite validateTransaction_outcome. cbn [String.eqb orb].
    change (String.eqb "DEPOSIT" "WITHDRAW") with false.
    change (String.eqb "DEPOSIT" "TRANSFER") with false.
    cbn [orb]. rewrite andb_true_r.
    destruct (negb (String.eqb (accountNumber a) "") &&
              negb (String.eqb (accountHolderName a) "")); cbn [andb negb].
    + destruct (isValidAmount amount) eqn:Hvalid; cbn [negb].
      * unfold bind.
        by rewrite (deposit_relock w this a this_live this_free amount
                      description (isValidAmount_positive _ Hvalid)).
      * unfold generateTransactionId, bind.
        by rewrite (getBalance_free w this a this_live Hd).
    + unfold generateTransactionId, bind.
      by rewrite (getBalance_free w this a this_live Hd).
  - unfold processWithdraw. unfold bind at 1.
    rewrite validateTransaction_outcome.
    change (String.eqb "WITHDRAW" "WITHDRAW") with true. cbn [orb].
    destruct (negb (String.eqb (accountNumber a) "") &&
              negb (String.eqb (accountHolderName a) "")); cbn [andb negb].
    + destruct (isValidAmount amount) eqn:Hvalid; cbn [andb negb].
      * destruct (PrimFloat.leb amount (balance a)) eqn:Hfunds; cbn [negb].
        -- unfold bind.
           rewrite (withdraw_relock w this a this_live this_free amount
                      description (isValidAmount_positive _ Hvalid)).
           by rewrite (float_leb_ltb _ _ Hfunds).
        -- unfold generateTransactionId, bind.
           by rewrite (getBalance_free w this a this_live Hd).
      * unfold generateTransactionId, bind.
        by rewrite (getBalance_free w this a this_live Hd).
    + unfold generateTransactionId, bind.
      by rewrite (getBalance_free w this a this_live Hd).
  - unfold processBalanceCheck, generateTransactionId, bind.
    by rewrite (getBalance_free w this a this_live Hd).
Qed.

End TransactionProcessorFacts.

Lemma TransactionProcessor_outcomes_witness :
  let active := negb (String.eqb (accountNumber ann) "") &&
                negb (String.eqb (accountHolderName ann) "") in
  let id := ((0 + 1) mod 2 ^ 64)%N in
  let n := ((transactionCounter opened + 1) mod 2 ^ 64)%N in
  TransactionProcessor.processDeposit 0 500 "Salary" 0 opened =
    (if active && TransactionProcessor.isValidAmount 500
     then Relock (AccountMutex 0)
            (inside opened 0 ann (balance ann + 500)%float n)
     else Returned ({| TransactionProcessor.success := false;
                       TransactionProcessor.message :=
                         "Invalid deposit transaction";
                       TransactionProcessor.transactionId := id;
                       TransactionProcessor.newBalance := balance ann |}, id)
            opened) /\
  TransactionProcessor.processWithdraw 0 500 "Salary" 0 opened =
    (if active && TransactionProcessor.isValidAmount 500 &&
        PrimFloat.leb 500 (balance ann)
     then Relock (AccountMutex 0)
            (inside opened 0 ann (balance ann - 500)%float n)
     else Returned ({| TransactionProcessor.success := false;
                       TransactionProcessor.message :=
                         "Invalid withdrawal transaction";
                       TransactionProcessor.transactionId := id;
                       TransactionProcessor.newBalance := balance ann |}, id)
            opened) /\
  TransactionProcessor.processBalanceCheck 0 0 opened =
    Returned ({| TransactionProcessor.success := true;
                 TransactionProcessor.message := "Balance check successful";
                 TransactionProcessor.transactionId := id;
                 TransactionProcessor.newBalance := balance ann |}, id)
      opened.
Proof.
  apply (TransactionProcessor_outcomes opened 0 ann); reflexivity.
Defined.

Section TransactionProcessorTransfer.

Import TransactionProcessor.

Variables (w : world) (this target : loc) (a t : Account).
Hypothesis distinct : this <> target.
Hypothesis this_live : heap w !! this = Some a.
Hypothesis target_live : heap w !! target = Some t.
Hypothesis this_free : accountMutex a = Mutex_new.
Hypothesis target_free : accountMutex t = Mutex_new.

(** X24.  [TransactionProcessor::processTransfer] between two accounts
    whose mutexes are free returns only [Invalid transfer transaction],
    with both accounts untouched.  A transfer that passes the
    validation, so that the funds suffice, does not return: the amount
    has left the one balance and reached the other, both mutexes are
    held, and the call stops at the record of the sender.
    [Transfer successful] and [Transfer failed - insufficient funds] are
    never produced. *)
Theorem TransactionProcessor_transfer_outcomes
    (amount : float) (description : string) (counter : N) :
  let active := negb (String.eqb (accountNumber a) "") &&
                negb (String.eqb (accountHolderName a) "") in
  let id := ((counter + 1) mod 2 ^ 64)%N in
  processTransfer this target amount description counter w =
    (if active && isValidAmount amount && PrimFloat.leb amount (balance a)
     then Relock (AccountMutex this)
            (inside2 w this target a t
               (balance a - amount)%float (balance t + amount)%float
               ((transactionCounter w + 1) mod 2 ^ 64)%N)
     else Returned ({| success := false;
                       message := "Invalid transfer transaction";
                       transactionId := id; newBalance := balance a |}, id)
            w).
Proof using distinct this_live target_live this_free target_free.
  intros active id. subst active id.
  assert (depth (accountMutex a) = 0) as Hd by (by rewrite this_free).
  unfold processTransfer. unfold bind at 1.
  rewrite (validateTransaction_outcome w this a this_live this_free).
  change (String.eqb "TRANSFER" "WITHDRAW") with false.
  change (String.eqb "TRANSFER" "TRANSFER") with true. cbn [orb].
  destruct (negb (String.eqb (accountNumber a) "") &&
            negb (String.eqb (accountHolderName a) "")); cbn [andb negb].
  - destruct (isValidAmount amount) eqn:Hvalid; cbn [andb negb].
    + destruct (PrimFloat.leb amount (balance a)) eqn:Hfunds; cbn [negb].
      * unfold bind.
        rewrite (transfer_relock w this target a t distinct this_live
                   target_live this_free target_free amount description
                   (isValidAmount_positive _ Hvalid)).
        by rewrite (float_leb_ltb _ _ Hfunds).
      * unfold generateTransactionId, bind.
        by rewrite (getBalance_free w this a this_live Hd).
    + unfold generateTransactionId, bind.
      by rewrite (getBalance_free w this a this_live Hd).
  - unfold generateTransactionId, bind.
    by rewrite (getBalance_free w this a this_live Hd).
Qed.

End TransactionProcessorTransfer.

Lemma TransactionProcessor_transfer_outcomes_witness :
  let active := negb (String.eqb (accountNumber ann) "") &&
                negb (String.eqb (accountHolderName ann) "") in
  let id := ((0 + 1) mod 2 ^ 64)%N in
  TransactionProcessor.processTransfer 0 2 30 "Gift" 0 opened =
    (if active && TransactionProcessor.isValidAmount 30 &&
        PrimFloat.leb 30 (balance ann)
     then Relock (AccountMutex 0)
            (inside2 opened 0 2 ann cid
               (balance ann - 30)%float (balance cid + 30)%float
               ((transactionCounter opened + 1) mod 2 ^ 64)%N)
     else Returned ({| TransactionProcessor.success := false;
                       TransactionProcessor.message :=
                         "Invalid transfer transaction";
                       TransactionProcessor.transactionId := id;
                       TransactionProcessor.newBalance := balance ann |}, id)
            opened).
Proof.
  apply (TransactionProcessor_transfer_outcomes opened 0 2 ann cid);
    first [reflexivity | discriminate].
Defined.
